(** * Flux and power-monitor face elements of the PML Fourier-decomposed
      Helmholtz equations

    Shallow embedding of
    [src/pml_fourier_decomposed_helmholtz/pml_fourier_decomposed_helmholtz_flux_elements.h]:
    the two class templates [PMLFourierDecomposedHelmholtzFluxElement] and
    [PMLFourierDecomposedHelmholtzPowerMonitorElement], their constructors,
    the residual assembly and the radiated-power integral.

    The C++ code mutates buffers that the caller passes by reference and
    reports misconfiguration by throwing; both are kept: computations live
    in a state-and-failure monad whose state survives a failure.  The
    arithmetic on [double] is kept behind an interface ([DoubleOps]) so
    that the same code runs on IEEE binary64 numbers and on the reals. *)

From Stdlib Require Import Ascii String.
From Stdlib Require Import List ZArith Lia Bool.
From Stdlib Require Import Reals Lra.
From Stdlib Require Import SpecFloat.
Import ListNotations.

Set Implicit Arguments.

(** ** The arithmetic of [double] *)

(** The operations on [double] that the header uses: the literal [0.0],
    [+] (through [+=]), [-] (through [-=]), [*], the constant
    [MathematicalConstants::Pi] and [atan2] from [math.h].  The last two are
    declared outside the header and are therefore fields of the interface. *)
Class DoubleOps : Type := {
  double : Type;
  dzero : double;
  dadd : double -> double -> double;
  dsub : double -> double -> double;
  dmul : double -> double -> double;
  Pi : double;
  atan2 : double -> double -> double
}.

Declare Scope double_scope.
Delimit Scope double_scope with D.
Notation "x + y" := (dadd x y) : double_scope.
Notation "x - y" := (dsub x y) : double_scope.
Notation "x * y" := (dmul x y) : double_scope.

(** [std::complex<T>] with its two accessors. *)
Record complex (T : Type) : Type := Complex { real : T; imag : T }.

(** ** Failures and the state-and-failure monad *)

(** What can stop a run: [throw OomphLibError(...)], an index outside a
    [Vector] (undefined in C++ unless the library is built with range
    checking, where it throws), and the use of a null pointer that a failed
    [dynamic_cast] returned. *)
Inductive Failure : Type :=
| OomphLibError (error_string : string)
| OutOfRange
| NullPointer.

Inductive Outcome (A : Type) : Type :=
| Normal (a : A)
| Failed (f : Failure).
Arguments Failed {A} f.

(** The object that a constructor produced, if it did not throw. *)
Definition produced {A} (o : Outcome A) : option A :=
  match o with
  | Normal a => Some a
  | Failed _ => None
  end.

(** A computation over by-reference state [S]: the state reached is
    returned also when the computation fails, as the caller of a throwing
    C++ function still sees the buffers as they were left. *)
Definition M (S A : Type) : Type := S -> Outcome A * S.

Definition ret {S A} (a : A) : M S A := fun s => (Normal a, s).

Definition fail {S A} (f : Failure) : M S A := fun s => (Failed f, s).

Definition bind {S A B} (m : M S A) (k : A -> M S B) : M S B :=
  fun s =>
    match m s with
    | (Normal a, s') => k a s'
    | (Failed f, s') => (Failed f, s')
    end.

Declare Scope monad_scope.
Delimit Scope monad_scope with M.
Notation "x <- m ;; k" := (bind m (fun x => k))
  (at level 100, m at next level, right associativity) : monad_scope.
Notation "m ;;; k" := (bind m (fun _ => k))
  (at level 100, right associativity) : monad_scope.

(** [for (unsigned i = 0; i < n; i++) body], the locals that the body
    reassigns being threaded as [x]. The counters of the header are
    [unsigned] and bounded by an [unsigned] limit, so they never wrap. *)
Fixpoint foreach {S X} (idx : list nat) (body : nat -> X -> M S X) (x : X)
  : M S X :=
  match idx with
  | [] => ret x
  | i :: rest => bind (body i x) (foreach rest body)
  end.

Definition for_ {S X} (n : nat) (body : nat -> X -> M S X) (x : X) : M S X :=
  foreach (seq 0 n) body x.

(** The same loop when the body touches no by-reference state. *)
Definition for_pure {X} (n : nat) (body : nat -> X -> X) (x : X) : X :=
  fold_left (fun acc i => body i acc) (seq 0 n) x.

(** [m] leaves the part [f] of the state as it found it, whether it
    fails or not. *)
Definition keeps {S A X} (f : S -> X) (m : M S A) : Prop :=
  forall s, f (snd (m s)) = f s.

(** Whether it fails or not, [m] leaves a state related by [R] to the one
    it found. *)
Definition moves_within {S A} (R : S -> S -> Prop) (m : M S A) : Prop :=
  forall s, R s (snd (m s)).

(** [m] cannot tell two states related by [R] apart and keeps them
    related. *)
Definition respects {S A} (R : S -> S -> Prop) (m : M S A) : Prop :=
  forall s s', R s s' -> fst (m s) = fst (m s') /\ R (snd (m s)) (snd (m s')).

(** [a - b] on [unsigned] (32 bits), with its wrap-around. *)
Definition unsigned_sub (a b : nat) : nat :=
  Z.to_nat ((Z.of_nat a - Z.of_nat b) mod 2 ^ 32).

(** ** Containers *)

(** [Vector<T>] is a [std::vector<T>]. *)
Definition Vector (T : Type) : Type := list T.

(** [v[i] = x] inside the vector; the callers below check the range. *)
Fixpoint update {T} (v : Vector T) (i : nat) (x : T) : Vector T :=
  match v, i with
  | [], _ => []
  | _ :: tl, O => x :: tl
  | hd :: tl, S j => hd :: update tl j x
  end.

Section Collaborators.

Context {D : DoubleOps}.

(** [DenseMatrix<double>]; the header only passes it on. *)
Definition DenseMatrix : Type := list (list double).

(** [GeneralisedElement::Dummy_matrix], the static matrix handed over when
    no Jacobian is wanted. *)
Definition Dummy_matrix : DenseMatrix := [].

(** [Shape] and [DShape]: arrays allocated for the number of nodes (and
    directions) of the element and indexed below those bounds only. *)
Definition Shape : Type := nat -> double.
Definition DShape : Type := nat -> nat -> double.

(** [Shape psi(n)]: freshly allocated storage holds zeros. *)
Definition new_Shape : Shape := fun _ => dzero.

(** [a[i] = x] on such an array. *)
Definition assign {T} (a : nat -> T) (i : nat) (x : T) : nat -> T :=
  fun j => if Nat.eqb j i then x else a j.

(** [std::complex<double>]: [z += w] and [z * d] with [d] a [double]. *)
Definition complex_add (z w : complex double) : complex double :=
  Complex (real z + real w)%D (imag z + imag w)%D.

Definition complex_times (z : complex double) (d : double) : complex double :=
  Complex (real z * d)%D (imag z * d)%D.

(** The integration scheme behind [integral_pt()]. *)
Record Integral : Type := {
  nweight : nat;
  knot : nat -> nat -> double;
  weight : nat -> double
}.

(** What a face element inherits from [FaceGeometry<ELEMENT>] and
    [FaceElement] once the bulk element has built it: the member functions
    of the base classes that the header calls. *)
Record FaceData : Type := {
  nnode : nat;
  integral_pt : Integral;
  shape : Vector double -> Shape;
  J_eulerian : Vector double -> double;
  nodal_position : nat -> nat -> double;
  nodal_local_eqn : nat -> nat -> Z;
  nodal_value : nat -> nat -> double;
  node_pt_ndim : nat -> nat;
  outer_unit_normal : Vector double -> nat -> double;
  local_coordinate_in_bulk : Vector double -> Vector double;
  interpolated_x : Vector double -> nat -> double
}.

(** [PMLFourierDecomposedHelmholtzEquations], as far as the header uses
    it: the virtual accessor of the pair of indices. *)
Record PMLFourierDecomposedHelmholtzEquations : Type := {
  u_index_pml_fourier_decomposed_helmholtz : complex nat
}.

(** The bulk element through its static type [ELEMENT]. *)
Record ELEMENT : Type := {
  bulk_nnode : nat;
  bulk_dim : nat;
  bulk_dshape_eulerian : Vector double -> Shape * DShape;
  bulk_nodal_value : nat -> nat -> double;
  bulk_u_index : complex nat
}.

(** The bulk element through a [FiniteElement*]: the face it builds for a
    face index and the results of the two [dynamic_cast]s ([None] for the
    null pointer). *)
Record FiniteElement : Type := {
  face_data : Z -> FaceData;
  cast_to_equations : option PMLFourierDecomposedHelmholtzEquations;
  cast_to_ELEMENT : option ELEMENT
}.

(** [FaceElement]: the face and the pointer to its bulk element, both set
    by [build_face_element]. *)
Record FaceElement : Type := {
  face : FaceData;
  bulk_element_pt : FiniteElement
}.

(** [bulk_el_pt->build_face_element(face_index, this)]. *)
Definition build_face_element (bulk_el_pt : FiniteElement) (face_index : Z)
  : FaceElement :=
  {| face := face_data bulk_el_pt face_index;
     bulk_element_pt := bulk_el_pt |}.

End Collaborators.

(** ** [PMLFourierDecomposedHelmholtzFluxElement] *)

Module FluxElement.
Section Members.

Context {D : DoubleOps}.
Local Open Scope double_scope.

(** [PMLFourierDecomposedHelmholtzPrescribedFluxFctPt]: the function
    receives the position and the flux by reference and leaves its result
    in the latter. *)
Definition PrescribedFluxFctPt : Type :=
  Vector double -> complex double -> complex double.

(** The data members, over the [FaceElement] base. *)
Record t : Type := {
  base : FaceElement;
  U_index_pml_fourier_decomposed_helmholtz : complex nat;
  Flux_fct_pt : option PrescribedFluxFctPt
}.

(** The broken empty constructor. *)
Definition empty_constructor : Outcome t :=
  Failed (OomphLibError
    "Don't call empty constructor for PMLFourierDecomposedHelmholtzFluxElement").

(** The constructor from the bulk element and the face index. *)
Definition constructor (bulk_el_pt : FiniteElement) (face_index : Z)
  : Outcome t :=
  let this_base := build_face_element bulk_el_pt face_index in
  let this_Flux_fct_pt : option PrescribedFluxFctPt := None in
  let this_U_index := Complex 0%nat 1%nat in
  match cast_to_equations bulk_el_pt with
  | None =>
      Failed (OomphLibError
        "Bulk element must inherit from PMLFourierDecomposedHelmholtzEquations.")
  | Some eqn_pt =>
      let this_U_index := u_index_pml_fourier_decomposed_helmholtz eqn_pt in
      Normal {| base := this_base;
                U_index_pml_fourier_decomposed_helmholtz := this_U_index;
                Flux_fct_pt := this_Flux_fct_pt |}
  end.

(** [flux_fct_pt() = fct]: the accessor returns a reference that the
    caller assigns through; a null pointer is [None]. *)
Definition set_flux_fct_pt (el : t) (fct : option PrescribedFluxFctPt) : t :=
  {| base := base el;
     U_index_pml_fourier_decomposed_helmholtz :=
       U_index_pml_fourier_decomposed_helmholtz el;
     Flux_fct_pt := fct |}.

(** [shape_and_test(s, psi, test)]: [psi] is filled by [shape], [test] is
    copied from it node by node, the Jacobian of the mapping is returned. *)
Definition shape_and_test (el : t) (s : Vector double) (psi test : Shape)
  : Shape * Shape * double :=
  let n_node := nnode (face (base el)) in
  let psi := shape (face (base el)) s in
  let test := for_pure n_node (fun i test => assign test i (psi i)) test in
  (psi, test, J_eulerian (face (base el)) s).

(** [get_flux(x, flux)]. *)
Definition get_flux (el : t) (x : Vector double) (flux : complex double)
  : complex double :=
  match Flux_fct_pt el with
  | None => Complex dzero dzero
  | Some fct => fct x flux
  end.

(** The two buffers that the caller passes by reference. *)
Record Buffers : Type := {
  residuals : Vector double;
  jacobian : DenseMatrix
}.

(** [residuals[local_eqn] -= term]. *)
Definition residuals_sub (local_eqn : Z) (term : double) : M Buffers unit :=
  fun b =>
    match nth_error (residuals b) (Z.to_nat local_eqn) with
    | Some old =>
        (Normal tt,
         {| residuals := update (residuals b) (Z.to_nat local_eqn) (old - term);
            jacobian := jacobian b |})
    | None => (Failed OutOfRange, b)
    end.

(** The position at which the flux is evaluated: the two nested loops on
    [interpolated_x], started from [(0.0, 0.0)]. *)
Definition calculate_coordinates (el : t) (psif : Shape) : Vector double :=
  let n_node := nnode (face (base el)) in
  for_pure n_node (fun l x =>
    for_pure 2 (fun i x =>
      update x i (nth i x dzero
                  + nodal_position (face (base el)) l i * psif l)) x)
    [dzero; dzero].

(** The body of the loop over the test functions. *)
Definition add_flux_terms (el : t) (flux : complex double) (testf : Shape)
    (r W : double) (l : nat) : M Buffers unit :=
  (let local_eqn_real :=
     nodal_local_eqn (face (base el)) l
       (real (U_index_pml_fourier_decomposed_helmholtz el)) in
   (if (0 <=? local_eqn_real)%Z
    then residuals_sub local_eqn_real (real flux * testf l * r * W)
    else ret tt) ;;;
   let local_eqn_imag :=
     nodal_local_eqn (face (base el)) l
       (imag (U_index_pml_fourier_decomposed_helmholtz el)) in
   if (0 <=? local_eqn_imag)%Z
   then residuals_sub local_eqn_imag (imag flux * testf l * r * W)
   else ret tt)%M.

(** The body of the loop over the integration points; [psif] and [testf]
    are allocated before the loop and refilled here. *)
Definition integration_point (el : t) (ipt : nat) (shapes : Shape * Shape)
  : M Buffers (Shape * Shape) :=
  (let s := map (knot (integral_pt (face (base el))) ipt) (seq 0 1) in
   let w := weight (integral_pt (face (base el))) ipt in
   let '(psif, testf, J) := shape_and_test el s (fst shapes) (snd shapes) in
   let W := w * J in
   let interpolated_x := calculate_coordinates el psif in
   let r := nth 0 interpolated_x dzero in
   let flux := get_flux el interpolated_x (Complex dzero dzero) in
   for_ (nnode (face (base el)))
        (fun l _ => add_flux_terms el flux testf r W l) tt ;;;
   ret (psif, testf))%M.

(** The generic routine; [flag] is 1 when the Jacobian is wanted too. *)
Definition fill_in_generic_residual_contribution_pml_fourier_decomposed_helmholtz_flux
    (el : t) (flag : nat) : M Buffers unit :=
  (let n_node := nnode (face (base el)) in
   let psif := new_Shape in
   let testf := new_Shape in
   let n_intpt := nweight (integral_pt (face (base el))) in
   for_ n_intpt (integration_point el) (psif, testf) ;;;
   ret tt)%M.

(** [fill_in_contribution_to_residuals(residuals)]: flag 0 and the dummy
    matrix. *)
Definition fill_in_contribution_to_residuals (el : t)
  : M (Vector double) unit :=
  fun res =>
    let '(out, b) :=
      fill_in_generic_residual_contribution_pml_fourier_decomposed_helmholtz_flux
        el 0 {| residuals := res; jacobian := Dummy_matrix |} in
    (out, residuals b).

(** [fill_in_contribution_to_jacobian(residuals, jacobian)]: flag 1. *)
Definition fill_in_contribution_to_jacobian (el : t) : M Buffers unit :=
  fill_in_generic_residual_contribution_pml_fourier_decomposed_helmholtz_flux
    el 1.

End Members.
End FluxElement.

(** The text that the power monitor writes.  A Rocq string has no escape
    sequences, so the line feed that C++ spells backslash-n is the
    character of code 10, and the group marker is the four letters ZONE
    followed by it. *)
Definition line_feed : string := String "010"%char EmptyString.

Definition zone_line : string := ("ZONE" ++ line_feed)%string.

(** ** [PMLFourierDecomposedHelmholtzPowerMonitorElement] *)

Module PowerMonitorElement.
Section Members.

Context {D : DoubleOps}.
Local Open Scope double_scope.

(** The data member, over the [FaceElement] base. *)
Record t : Type := {
  base : FaceElement;
  U_index_pml_fourier_decomposed_helmholtz : complex nat
}.

(** The broken empty constructor. *)
Definition empty_constructor : Outcome t :=
  Failed (OomphLibError
    "Don't call empty constructor for PMLFourierDecomposedHelmholtzPowerMonitorElement").

(** The constructor from the bulk element and the face index. *)
Definition constructor (bulk_el_pt : FiniteElement) (face_index : Z)
  : Outcome t :=
  let this_base := build_face_element bulk_el_pt face_index in
  let this_U_index := Complex 0%nat 1%nat in
  match cast_to_equations bulk_el_pt with
  | None =>
      Failed (OomphLibError
        "Bulk element must inherit from PMLFourierDecomposedHelmholtzEquations.")
  | Some eqn_pt =>
      let this_U_index := u_index_pml_fourier_decomposed_helmholtz eqn_pt in
      Normal {| base := this_base;
                U_index_pml_fourier_decomposed_helmholtz := this_U_index |}
  end.

(** [u_index_pml_fourier_decomposed_helmholtz()] of the face element. *)
Definition u_index (el : t) : complex nat :=
  Complex (real (U_index_pml_fourier_decomposed_helmholtz el))
          (imag (U_index_pml_fourier_decomposed_helmholtz el)).

(** What [operator<<] is given: text or a number. *)
Inductive Item : Type :=
| Text (s : string)
| Number (d : double).

(** A [std::ofstream]: whether it is open and what went into it. *)
Record ofstream : Type := {
  is_open : bool;
  written : list Item
}.

(** [std::ofstream outfile;] is not open. *)
Definition dummy_outfile : ofstream := {| is_open := false; written := [] |}.

(** [outfile.is_open()]. *)
Definition outfile_is_open : M ofstream bool :=
  fun outfile => (Normal (is_open outfile), outfile).

(** [outfile << item]; a stream that is not open takes nothing. *)
Definition put (item : Item) : M ofstream unit :=
  fun outfile =>
    (Normal tt,
     if is_open outfile
     then {| is_open := true; written := written outfile ++ [item] |}
     else outfile).

(** [x[i]] on [Vector<double> x(size)]. *)
Definition index {S} (size : nat) (x : nat -> double) (i : nat) : M S double :=
  if Nat.ltb i size then ret (x i) else fail OutOfRange.

(** The gradient of the field: the loop over the bulk nodes and, inside,
    over the directions. *)
Definition calculate_dphidx (bulk_elem_pt : ELEMENT) (dpsi_bulk_dx : DShape)
  : nat -> complex double :=
  for_pure (bulk_nnode bulk_elem_pt) (fun l interpolated_dphidx =>
    let phi_value :=
      Complex
        (bulk_nodal_value bulk_elem_pt l (real (bulk_u_index bulk_elem_pt)))
        (bulk_nodal_value bulk_elem_pt l (imag (bulk_u_index bulk_elem_pt))) in
    for_pure (bulk_dim bulk_elem_pt) (fun i interpolated_dphidx =>
      assign interpolated_dphidx i
        (complex_add (interpolated_dphidx i)
                     (complex_times phi_value (dpsi_bulk_dx l i))))
      interpolated_dphidx)
    (fun _ => Complex dzero dzero).

(** The field itself: the loop over the nodes of the face. *)
Definition calculate_phi (el : t) (psi : Shape) : complex double :=
  for_pure (nnode (face (base el))) (fun l interpolated_phi =>
    let phi_value :=
      Complex (nodal_value (face (base el)) l (real (u_index el)))
              (nodal_value (face (base el)) l (imag (u_index el))) in
    complex_add interpolated_phi (complex_times phi_value (psi l)))
    (Complex dzero dzero).

(** The normal derivative: the loop that defines [dphi_dn]. *)
Definition define_dphi_dn (bulk_elem_pt : ELEMENT)
    (interpolated_dphidx : nat -> complex double) (unit_normal : nat -> double)
  : complex double :=
  for_pure (bulk_dim bulk_elem_pt) (fun i dphi_dn =>
    complex_add dphi_dn (complex_times (interpolated_dphidx i) (unit_normal i)))
    (Complex dzero dzero).

(** The power density. *)
Definition power_density (interpolated_phi dphi_dn : complex double)
  : double :=
  real interpolated_phi * imag dphi_dn - imag interpolated_phi * real dphi_dn.

(** The body of the loop over the integration points. *)
Definition integration_point (el : t) (bulk_elem_pt : ELEMENT) (ipt : nat)
    (power : double) : M ofstream double :=
  (let local_dim := node_pt_ndim (face (base el)) 0 in
   let s := map (knot (integral_pt (face (base el))) ipt)
                (seq 0 (unsigned_sub local_dim 1)) in
   let unit_normal := outer_unit_normal (face (base el)) s in
   let w := weight (integral_pt (face (base el))) ipt in
   let J := J_eulerian (face (base el)) s in
   let W := w * J in
   let s_bulk := local_coordinate_in_bulk (face (base el)) s in
   let '(psi_bulk, dpsi_bulk_dx) := bulk_dshape_eulerian bulk_elem_pt s_bulk in
   let psi := shape (face (base el)) s in
   let interpolated_dphidx := calculate_dphidx bulk_elem_pt dpsi_bulk_dx in
   let interpolated_phi := calculate_phi el psi in
   let dphi_dn := define_dphi_dn bulk_elem_pt interpolated_dphidx unit_normal in
   let integrand := power_density interpolated_phi dphi_dn in
   let x := interpolated_x (face (base el)) s in
   x0 <- index (bulk_dim bulk_elem_pt) x 0 ;;
   x1 <- index (bulk_dim bulk_elem_pt) x 1 ;;
   let theta := atan2 x0 x1 in
   open <- outfile_is_open ;;
   (if open : bool
    then put (Number x0) ;;; put (Text " ") ;;;
         put (Number x1) ;;; put (Text " ") ;;;
         put (Number theta) ;;; put (Text " ") ;;;
         put (Number integrand) ;;; put (Text line_feed)
    else ret tt) ;;;
   ret (power + Pi * x0 * integrand * W))%M.

(** [global_power_contribution(outfile)]. *)
Definition global_power_contribution (el : t) : M ofstream double :=
  (match cast_to_ELEMENT (bulk_element_pt (base el)) with
   | None => fail NullPointer
   | Some bulk_elem_pt =>
       let n_intpt := nweight (integral_pt (face (base el))) in
       let power := dzero in
       open <- outfile_is_open ;;
       (if open : bool then put (Text zone_line) else ret tt) ;;;
       for_ n_intpt (integration_point el bulk_elem_pt) power
   end)%M.

(** [global_power_contribution()]: the same on a dummy output file. *)
Definition global_power_contribution_dummy (el : t) : Outcome double :=
  fst (global_power_contribution el dummy_outfile).

(** What the output file holds after [records] went into it. *)
Definition after_records (outfile : ofstream) (records : list Item)
  : ofstream :=
  if is_open outfile
  then {| is_open := true; written := written outfile ++ records |}
  else outfile.

(** On an output file that is not open, [m] does what it does on the dummy
    one and leaves the file as it is. *)
Definition quiet {A} (m : M ofstream A) : Prop :=
  forall outfile,
    is_open outfile = false -> m outfile = (fst (m dummy_outfile), outfile).

End Members.
End PowerMonitorElement.

(** ** What the loops compute, point by point

    The quantities that the two integration loops hold in their locals at
    integration point [ipt], named so that the statements below can refer to
    them, and the sums that the specification describes. *)

Section Quantities.

Context {D : DoubleOps}.
Local Open Scope double_scope.

(** *** Flux element *)

Definition flux_s (el : FluxElement.t) (ipt : nat) : Vector double :=
  map (knot (integral_pt (face (FluxElement.base el))) ipt) (seq 0 1).

(** The test function of node [l]: the shape function, by the copy in
    [shape_and_test]. *)
Definition flux_test (el : FluxElement.t) (ipt l : nat) : double :=
  shape (face (FluxElement.base el)) (flux_s el ipt) l.

(** Quadrature weight times Jacobian. *)
Definition flux_W (el : FluxElement.t) (ipt : nat) : double :=
  weight (integral_pt (face (FluxElement.base el))) ipt
  * J_eulerian (face (FluxElement.base el)) (flux_s el ipt).

Definition flux_position (el : FluxElement.t) (ipt : nat) : Vector double :=
  FluxElement.calculate_coordinates el
    (shape (face (FluxElement.base el)) (flux_s el ipt)).

(** The radial coordinate. *)
Definition flux_r (el : FluxElement.t) (ipt : nat) : double :=
  nth 0 (flux_position el ipt) dzero.

(** The imposed flux. *)
Definition flux_value (el : FluxElement.t) (ipt : nat) : complex double :=
  FluxElement.get_flux el (flux_position el ipt) (Complex dzero dzero).

Definition local_eqn_real (el : FluxElement.t) (l : nat) : Z :=
  nodal_local_eqn (face (FluxElement.base el)) l
    (real (FluxElement.U_index_pml_fourier_decomposed_helmholtz el)).

Definition local_eqn_imag (el : FluxElement.t) (l : nat) : Z :=
  nodal_local_eqn (face (FluxElement.base el)) l
    (imag (FluxElement.U_index_pml_fourier_decomposed_helmholtz el)).

(** The equation numbers of the nodes that are not negative lie inside a
    residual vector of [n] entries. *)
Definition eqns_in_range (el : FluxElement.t) (n : nat) : Prop :=
  forall l, (l < nnode (face (FluxElement.base el)))%nat ->
    (local_eqn_real el l < Z.of_nat n)%Z /\
    (local_eqn_imag el l < Z.of_nat n)%Z.

(** Every node of the face is pinned in both parts of the unknown. *)
Definition all_pinned (el : FluxElement.t) : Prop :=
  forall l, (l < nnode (face (FluxElement.base el)))%nat ->
    (local_eqn_real el l < 0)%Z /\ (local_eqn_imag el l < 0)%Z.

(** Entry [k] of the residual vector is addressed by some node. *)
Definition addressed (el : FluxElement.t) (k : nat) : Prop :=
  exists l, (l < nnode (face (FluxElement.base el)))%nat /\
    (local_eqn_real el l = Z.of_nat k \/ local_eqn_imag el l = Z.of_nat k).

(** The specification's account of the residual, entry by entry: node [l]
    takes [flux.real() * test(l) * r * W] off the entry of its real
    equation number and the same with [flux.imag()] off the entry of its
    imaginary one. *)
Definition subtract_terms (el : FluxElement.t) (flux : complex double)
    (test : Shape) (r W : double) (k : nat) (entry : double) (l : nat)
  : double :=
  let entry :=
    if (local_eqn_real el l =? Z.of_nat k)%Z
    then entry - real flux * test l * r * W
    else entry in
  if (local_eqn_imag el l =? Z.of_nat k)%Z
  then entry - imag flux * test l * r * W
  else entry.

(** The same at integration point [ipt], where [W] is the quadrature
    weight times the Jacobian. *)
Definition subtract_at_node (el : FluxElement.t) (ipt k : nat)
    (entry : double) (l : nat) : double :=
  subtract_terms el (flux_value el ipt) (flux_test el ipt)
    (flux_r el ipt) (flux_W el ipt) k entry l.

Definition residual_entry_after (el : FluxElement.t) (k : nat)
    (entry : double) : double :=
  fold_left
    (fun entry ipt =>
       fold_left (subtract_at_node el ipt k)
                 (seq 0 (nnode (face (FluxElement.base el)))) entry)
    (seq 0 (nweight (integral_pt (face (FluxElement.base el))))) entry.

(** A matrix of zeros, as the caller of [fill_in_contribution_to_jacobian]
    prepares it. *)
Definition zero_matrix (nrow ncol : nat) : DenseMatrix :=
  repeat (repeat dzero ncol) nrow.

(** *** Power monitor *)

Definition power_s (el : PowerMonitorElement.t) (ipt : nat) : Vector double :=
  map (knot (integral_pt (face (PowerMonitorElement.base el))) ipt)
      (seq 0 (unsigned_sub
                (node_pt_ndim (face (PowerMonitorElement.base el)) 0) 1)).

(** The field reconstructed on the face. *)
Definition field_value (el : PowerMonitorElement.t) (ipt : nat)
  : complex double :=
  PowerMonitorElement.calculate_phi el
    (shape (face (PowerMonitorElement.base el)) (power_s el ipt)).

(** The normal derivative reconstructed from the bulk element. *)
Definition normal_derivative (el : PowerMonitorElement.t)
    (bulk_elem_pt : ELEMENT) (ipt : nat) : complex double :=
  PowerMonitorElement.define_dphi_dn bulk_elem_pt
    (PowerMonitorElement.calculate_dphidx bulk_elem_pt
       (snd (bulk_dshape_eulerian bulk_elem_pt
               (local_coordinate_in_bulk (face (PowerMonitorElement.base el))
                  (power_s el ipt)))))
    (outer_unit_normal (face (PowerMonitorElement.base el)) (power_s el ipt)).

Definition integrand_at (el : PowerMonitorElement.t) (bulk_elem_pt : ELEMENT)
    (ipt : nat) : double :=
  PowerMonitorElement.power_density
    (field_value el ipt) (normal_derivative el bulk_elem_pt ipt).

Definition power_x (el : PowerMonitorElement.t) (ipt i : nat) : double :=
  interpolated_x (face (PowerMonitorElement.base el)) (power_s el ipt) i.

Definition power_W (el : PowerMonitorElement.t) (ipt : nat) : double :=
  weight (integral_pt (face (PowerMonitorElement.base el))) ipt
  * J_eulerian (face (PowerMonitorElement.base el)) (power_s el ipt).

(** The specification's account of the power: the running sum over the
    integration points of [Pi * x0 * integrand * (w * J)]. *)
Definition power_sum (el : PowerMonitorElement.t) (bulk_elem_pt : ELEMENT)
  : double :=
  fold_left
    (fun power ipt =>
       power + Pi * power_x el ipt 0 * integrand_at el bulk_elem_pt ipt
               * power_W el ipt)
    (seq 0 (nweight (integral_pt (face (PowerMonitorElement.base el)))))
    dzero.

(** The diagnostic record of integration point [ipt]. *)
Definition power_record (el : PowerMonitorElement.t) (bulk_elem_pt : ELEMENT)
    (ipt : nat) : list PowerMonitorElement.Item :=
  [PowerMonitorElement.Number (power_x el ipt 0);
   PowerMonitorElement.Text " ";
   PowerMonitorElement.Number (power_x el ipt 1);
   PowerMonitorElement.Text " ";
   PowerMonitorElement.Number (atan2 (power_x el ipt 0) (power_x el ipt 1));
   PowerMonitorElement.Text " ";
   PowerMonitorElement.Number (integrand_at el bulk_elem_pt ipt);
   PowerMonitorElement.Text line_feed].

(** A failure raised by [throw OomphLibError(...)]: the specification's
    [ConfigurationError]. *)
Definition ConfigurationError {A} (o : Outcome A) : Prop :=
  exists error_string, o = Failed (OomphLibError error_string).

End Quantities.

(** ** Two arithmetics *)

(** [atan2] of [math.h] on the reals. *)
Definition Ratan2 (y x : R) : R :=
  if Rlt_dec 0 x then atan (y / x)
  else if Rlt_dec x 0
       then if Rle_dec 0 y then atan (y / x) + PI else atan (y / x) - PI
       else if Rlt_dec 0 y then PI / 2
            else if Rlt_dec y 0 then - PI / 2 else 0.

(** Modelled from the spec: [MathematicalConstants::Pi], which is declared
    outside the header; the specification writes it as the number pi. *)
Definition Pi_exact : R := PI.

(** Exact arithmetic: [double] read as a real number, the level at which
    the specification states its formulas. *)
Definition reals : DoubleOps :=
  {| double := R;
     dzero := 0%R;
     dadd := Rplus;
     dsub := Rminus;
     dmul := Rmult;
     Pi := Pi_exact;
     atan2 := Ratan2 |}.

(** Modelled from the spec: [MathematicalConstants::Pi] as a [double], the
    binary64 number nearest to pi (0x400921FB54442D18, the value of
    [M_PI]). *)
Definition M_PI : spec_float := S754_finite false 7074237752028440 (-51).

(** IEEE 754 binary64 with round to nearest even, the arithmetic of
    [double]; [atan2] comes from the C library and is left open. *)
Definition binary64 (libm_atan2 : spec_float -> spec_float -> spec_float)
  : DoubleOps :=
  {| double := spec_float;
     dzero := S754_zero false;
     dadd := SFadd 53 1024;
     dsub := SFsub 53 1024;
     dmul := SFmul 53 1024;
     Pi := M_PI;
     atan2 := libm_atan2 |}.

(** Zeros of either sign; zeros and finite numbers (neither infinite nor
    NaN); equality up to the sign of zero, which is what [==] sees. *)
Definition b64_is_zero (x : spec_float) : bool :=
  match x with
  | S754_zero _ => true
  | _ => false
  end.

Definition b64_is_finite (x : spec_float) : bool :=
  match x with
  | S754_zero _ | S754_finite _ _ _ => true
  | _ => false
  end.

Definition same_number (x y : spec_float) : Prop :=
  x = y \/ (b64_is_zero x = true /\ b64_is_zero y = true).

(** [n] as a [double], for small integers. *)
Definition b64 (n : Z) : spec_float := binary_normalize 53 1024 n 0 false.

(** ** The scenarios of the specification *)

Section Scenarios.

Context {D : DoubleOps}.

(** One face with one node and one integration point of weight [one]:
    Jacobian [one], shape function [one], position [(r, 0)], outer normal
    [(1, 0)], nodal value [(1, 0)], equation numbers given by [eqn]. *)
Definition scenario_face (one r : double) (eqn : nat -> nat -> Z) : FaceData :=
  {| nnode := 1;
     integral_pt :=
       {| nweight := 1; knot := fun _ _ => dzero; weight := fun _ => one |};
     shape := fun _ _ => one;
     J_eulerian := fun _ => one;
     nodal_position := fun _ i => if Nat.eqb i 0 then r else dzero;
     nodal_local_eqn := eqn;
     nodal_value := fun _ i => if Nat.eqb i 0 then one else dzero;
     node_pt_ndim := fun _ => 2%nat;
     outer_unit_normal := fun _ i => if Nat.eqb i 0 then one else dzero;
     local_coordinate_in_bulk := fun s => one :: s;
     interpolated_x := fun _ i => if Nat.eqb i 0 then r else dzero |}.

(** A two-dimensional bulk element with two nodes of values [(1, 0)] and
    [(0, 1)]; only the second shape function varies, with derivative
    [(two, 0)]. *)
Definition scenario_ELEMENT (one two : double) : ELEMENT :=
  {| bulk_nnode := 2;
     bulk_dim := 2;
     bulk_dshape_eulerian := fun _ =>
       (fun l => if Nat.eqb l 0 then one else dzero,
        fun l i => if Nat.eqb l 1 && Nat.eqb i 0 then two else dzero);
     bulk_nodal_value := fun l i => if Nat.eqb l i then one else dzero;
     bulk_u_index := Complex 0%nat 1%nat |}.

Definition scenario_bulk (one two r : double) (eqn : nat -> nat -> Z)
    (helmholtz : bool) : FiniteElement :=
  {| face_data := fun _ => scenario_face one r eqn;
     cast_to_equations :=
       if helmholtz
       then Some {| u_index_pml_fourier_decomposed_helmholtz :=
                      Complex 0%nat 1%nat |}
       else None;
     cast_to_ELEMENT := Some (scenario_ELEMENT one two) |}.

(** Both values of a node free, numbered by their index. *)
Definition free_eqn : nat -> nat -> Z := fun _ i => Z.of_nat i.

(** Every value pinned. *)
Definition pinned_eqn : nat -> nat -> Z := fun _ _ => (-1)%Z.

Definition scenario_flux_element (one two r : double) (eqn : nat -> nat -> Z)
    (fct : option FluxElement.PrescribedFluxFctPt) : FluxElement.t :=
  {| FluxElement.base := build_face_element (scenario_bulk one two r eqn true) 0;
     FluxElement.U_index_pml_fourier_decomposed_helmholtz :=
       Complex 0%nat 1%nat;
     FluxElement.Flux_fct_pt := fct |}.

Definition scenario_power_element (one two : double) : PowerMonitorElement.t :=
  {| PowerMonitorElement.base :=
       build_face_element (scenario_bulk one two one free_eqn true) 0;
     PowerMonitorElement.U_index_pml_fourier_decomposed_helmholtz :=
       Complex 0%nat 1%nat |}.

End Scenarios.

(** The flux scenario on the reals: radial coordinate 2, flux [(3, -4)]. *)
Definition flux_scenario_R : @FluxElement.t reals :=
  @scenario_flux_element reals 1%R 2%R 2%R free_eqn
    (Some (fun _ _ => Complex 3%R (-4)%R)).

(** The same on binary64. *)
Definition flux_scenario_b64 (libm_atan2 : spec_float -> spec_float -> spec_float)
  : @FluxElement.t (binary64 libm_atan2) :=
  @scenario_flux_element (binary64 libm_atan2) (b64 1) (b64 2) (b64 2) free_eqn
    (Some (fun _ _ => Complex (b64 3) (b64 (-4)))).

(** The same face with every value pinned. *)
Definition pinned_scenario_R : @FluxElement.t reals :=
  @scenario_flux_element reals 1%R 2%R 2%R pinned_eqn
    (Some (fun _ _ => Complex 3%R (-4)%R)).

Definition power_scenario_R : @PowerMonitorElement.t reals :=
  @scenario_power_element reals 1%R 2%R.



Definition power_scenario_b64 (libm_atan2 : spec_float -> spec_float -> spec_float)
  : @PowerMonitorElement.t (binary64 libm_atan2) :=
  @scenario_power_element (binary64 libm_atan2) (b64 1) (b64 2).

(** ** The members that the two routines do not call, and what the
       further statements need *)

Section OtherMembers.

Context {D : DoubleOps}.
Local Open Scope double_scope.

(** [u_index_pml_fourier_decomposed_helmholtz()] of the flux element. *)
Definition flux_u_index (el : FluxElement.t) : complex nat :=
  Complex (real (FluxElement.U_index_pml_fourier_decomposed_helmholtz el))
          (imag (FluxElement.U_index_pml_fourier_decomposed_helmholtz el)).

(** [shape_and_test_at_knot(ipt, psi, test)] of the flux element; the
    stored values behind [shape_at_knot] and [J_eulerian_at_knot] belong to
    the base classes and are arguments here. *)
Definition shape_and_test_at_knot (el : FluxElement.t)
    (shape_at_knot : nat -> Shape) (J_eulerian_at_knot : nat -> double)
    (ipt : nat) (psi test : Shape) : Shape * Shape * double :=
  let n_node := nnode (face (FluxElement.base el)) in
  let psi := shape_at_knot ipt in
  let test := for_pure n_node (fun i test => assign test i (psi i)) test in
  (psi, test, J_eulerian_at_knot ipt).

(** [shape_and_test(s, psi, test)] of the power monitor: here [test] is
    filled by [shape] and [psi] is copied from it. *)
Definition power_shape_and_test (el : PowerMonitorElement.t)
    (s : Vector double) (psi test : Shape) : Shape * Shape * double :=
  let test := shape (face (PowerMonitorElement.base el)) s in
  let nnod := nnode (face (PowerMonitorElement.base el)) in
  let psi := for_pure nnod (fun i psi => assign psi i (test i)) psi in
  (psi, test, J_eulerian (face (PowerMonitorElement.base el)) s).

(** [a(i, j) = x] on a [DShape]. *)
Definition assign2 (a : DShape) (i j : nat) (x : double) : DShape :=
  fun i' j' => if Nat.eqb i' i && Nat.eqb j' j then x else a i' j'.

(** [d_shape_and_test_local(s, psi, test, dpsi_ds, dtest_ds)] of the power
    monitor; [dshape_local] belongs to the base classes and is an argument
    here.  The inner loop runs over [j < 1]. *)
Definition d_shape_and_test_local (el : PowerMonitorElement.t)
    (dshape_local : Vector double -> Shape * DShape)
    (s : Vector double) (psi test : Shape) (dpsi_ds dtest_ds : DShape)
  : Shape * Shape * DShape * DShape * double :=
  let n_node := nnode (face (PowerMonitorElement.base el)) in
  let '(psi, dpsi_ds) := dshape_local s in
  let '(test, dtest_ds) :=
    for_pure n_node (fun i copies =>
      for_pure 1 (fun j copies =>
        (assign (fst copies) i (psi i),
         assign2 (snd copies) i j (dpsi_ds i j))) copies)
      (test, dtest_ds) in
  (psi, test, dpsi_ds, dtest_ds, J_eulerian (face (PowerMonitorElement.base el)) s).

(** The output file [outfile'] is [outfile] with more at its end: as open
    as before, nothing of what it held lost or changed. *)
Definition extends (outfile outfile' : PowerMonitorElement.ofstream) : Prop :=
  PowerMonitorElement.is_open outfile' = PowerMonitorElement.is_open outfile /\
  exists more,
    PowerMonitorElement.written outfile'
    = PowerMonitorElement.written outfile ++ more.

(** Two flux elements on the same face with the same pair of indices. *)
Definition same_face (el el' : FluxElement.t) : Prop :=
  FluxElement.base el' = FluxElement.base el /\
  FluxElement.U_index_pml_fourier_decomposed_helmholtz el'
  = FluxElement.U_index_pml_fourier_decomposed_helmholtz el.

(** The bulk element of the scenarios with the real value [value] at both
    nodes, and a power monitor on it. *)
Definition real_valued_ELEMENT (one two value : double) : ELEMENT :=
  {| bulk_nnode := 2;
     bulk_dim := 2;
     bulk_dshape_eulerian := fun _ =>
       (fun l => if Nat.eqb l 0 then one else dzero,
        fun l i => if Nat.eqb l 1 && Nat.eqb i 0 then two else dzero);
     bulk_nodal_value := fun l i => if Nat.eqb i 0 then value else dzero;
     bulk_u_index := Complex 0%nat 1%nat |}.

Definition real_valued_power_element (one two value : double)
  : PowerMonitorElement.t :=
  {| PowerMonitorElement.base :=
       {| face := scenario_face one one free_eqn;
          bulk_element_pt :=
            {| face_data := fun _ => scenario_face one one free_eqn;
               cast_to_equations :=
                 Some {| u_index_pml_fourier_decomposed_helmholtz :=
                           Complex 0%nat 1%nat |};
               cast_to_ELEMENT := Some (real_valued_ELEMENT one two value) |} |};
     PowerMonitorElement.U_index_pml_fourier_decomposed_helmholtz :=
       Complex 0%nat 1%nat |}.

(** The face [f] under an integration scheme without points. *)
Definition without_points (f : FaceData) : FaceData :=
  {| nnode := nnode f;
     integral_pt :=
       {| nweight := 0; knot := knot (integral_pt f);
          weight := weight (integral_pt f) |};
     shape := shape f;
     J_eulerian := J_eulerian f;
     nodal_position := nodal_position f;
     nodal_local_eqn := nodal_local_eqn f;
     nodal_value := nodal_value f;
     node_pt_ndim := node_pt_ndim f;
     outer_unit_normal := outer_unit_normal f;
     local_coordinate_in_bulk := local_coordinate_in_bulk f;
     interpolated_x := interpolated_x f |}.

(** The flux element [el] under an integration scheme without points. *)
Definition flux_without_points (el : FluxElement.t) : FluxElement.t :=
  {| FluxElement.base :=
       {| face := without_points (face (FluxElement.base el));
          bulk_element_pt := bulk_element_pt (FluxElement.base el) |};
     FluxElement.U_index_pml_fourier_decomposed_helmholtz :=
       FluxElement.U_index_pml_fourier_decomposed_helmholtz el;
     FluxElement.Flux_fct_pt := FluxElement.Flux_fct_pt el |}.

(** The power monitor [el] under an integration scheme without points. *)
Definition power_without_points (el : PowerMonitorElement.t)
  : PowerMonitorElement.t :=
  {| PowerMonitorElement.base :=
       {| face := without_points (face (PowerMonitorElement.base el));
          bulk_element_pt := bulk_element_pt (PowerMonitorElement.base el) |};
     PowerMonitorElement.U_index_pml_fourier_decomposed_helmholtz :=
       PowerMonitorElement.U_index_pml_fourier_decomposed_helmholtz el |}.

(** The face [f] with other nodal values. *)
Definition with_nodal_values (f : FaceData) (values : nat -> nat -> double)
  : FaceData :=
  {| nnode := nnode f;
     integral_pt := integral_pt f;
     shape := shape f;
     J_eulerian := J_eulerian f;
     nodal_position := nodal_position f;
     nodal_local_eqn := nodal_local_eqn f;
     nodal_value := values;
     node_pt_ndim := node_pt_ndim f;
     outer_unit_normal := outer_unit_normal f;
     local_coordinate_in_bulk := local_coordinate_in_bulk f;
     interpolated_x := interpolated_x f |}.

(** The flux element [el] on a face with other nodal values and another
    bulk element behind it. *)
Definition flux_with_solution (el : FluxElement.t)
    (values : nat -> nat -> double) (bulk : FiniteElement) : FluxElement.t :=
  {| FluxElement.base :=
       {| face := with_nodal_values (face (FluxElement.base el)) values;
          bulk_element_pt := bulk |};
     FluxElement.U_index_pml_fourier_decomposed_helmholtz :=
       FluxElement.U_index_pml_fourier_decomposed_helmholtz el;
     FluxElement.Flux_fct_pt := FluxElement.Flux_fct_pt el |}.

(** Nodal values with the imaginary part of the unknown negated: the
    value at [imag index] becomes [0.0 - value]. *)
Definition conjugate_values (values : nat -> nat -> double)
    (index : complex nat) : nat -> nat -> double :=
  fun l i => if Nat.eqb i (imag index) then dzero - values l i
             else values l i.

(** The bulk element with the complex conjugate of its nodal values. *)
Definition conjugate_ELEMENT (e : ELEMENT) : ELEMENT :=
  {| bulk_nnode := bulk_nnode e;
     bulk_dim := bulk_dim e;
     bulk_dshape_eulerian := bulk_dshape_eulerian e;
     bulk_nodal_value := conjugate_values (bulk_nodal_value e) (bulk_u_index e);
     bulk_u_index := bulk_u_index e |}.

(** The power monitor on the same face and the same bulk element with the
    complex conjugate of the nodal values. *)
Definition conjugate_power (el : PowerMonitorElement.t)
  : PowerMonitorElement.t :=
  {| PowerMonitorElement.base :=
       {| face :=
            with_nodal_values (face (PowerMonitorElement.base el))
              (conjugate_values
                 (nodal_value (face (PowerMonitorElement.base el)))
                 (PowerMonitorElement.U_index_pml_fourier_decomposed_helmholtz el));
          bulk_element_pt :=
            {| face_data :=
                 face_data (bulk_element_pt (PowerMonitorElement.base el));
               cast_to_equations :=
                 cast_to_equations
                   (bulk_element_pt (PowerMonitorElement.base el));
               cast_to_ELEMENT :=
                 option_map conjugate_ELEMENT
                   (cast_to_ELEMENT
                      (bulk_element_pt (PowerMonitorElement.base el))) |} |};
     PowerMonitorElement.U_index_pml_fourier_decomposed_helmholtz :=
       PowerMonitorElement.U_index_pml_fourier_decomposed_helmholtz el |}.

(** The face [f] with other shape functions. *)
Definition with_shape_functions (f : FaceData)
    (psi : Vector double -> Shape) : FaceData :=
  {| nnode := nnode f;
     integral_pt := integral_pt f;
     shape := psi;
     J_eulerian := J_eulerian f;
     nodal_position := nodal_position f;
     nodal_local_eqn := nodal_local_eqn f;
     nodal_value := nodal_value f;
     node_pt_ndim := node_pt_ndim f;
     outer_unit_normal := outer_unit_normal f;
     local_coordinate_in_bulk := local_coordinate_in_bulk f;
     interpolated_x := interpolated_x f |}.

(** A power monitor on the face [f] of a bulk element that is the
    [ELEMENT] [e] and stores the unknown at the indices 0 and 1. *)
Definition power_on (f : FaceData) (e : ELEMENT) : PowerMonitorElement.t :=
  {| PowerMonitorElement.base :=
       {| face := f;
          bulk_element_pt :=
            {| face_data := fun _ => f;
               cast_to_equations :=
                 Some {| u_index_pml_fourier_decomposed_helmholtz :=
                           Complex 0%nat 1%nat |};
               cast_to_ELEMENT := Some e |} |};
     PowerMonitorElement.U_index_pml_fourier_decomposed_helmholtz :=
       Complex 0%nat 1%nat |}.

(** A flux function that gives [c] at positions of two coordinates and
    zero elsewhere. *)
Definition flux_on_the_plane (c : complex double)
  : FluxElement.PrescribedFluxFctPt :=
  fun x _ =>
    match x with
    | [_; _] => c
    | _ => Complex dzero dzero
    end.

End OtherMembers.

(** A stand-in for [atan2] where it is never called. *)
Definition no_atan2 : spec_float -> spec_float -> spec_float :=
  fun _ _ => S754_nan.


(** Both values of a node free, numbered from 2 on. *)
Definition second_eqn : nat -> nat -> Z := fun _ i => Z.of_nat (i + 2).

(** A second flux element on binary64, on its own equation numbers 2 and
    3: radial coordinate 1 and the flux [(1, 1)]. *)
Definition second_flux_scenario_b64 : @FluxElement.t (binary64 no_atan2) :=
  @scenario_flux_element (binary64 no_atan2) (b64 1) (b64 2) (b64 1)
    second_eqn (Some (fun _ _ => Complex (b64 1) (b64 1))).



(** The power scenario on binary64 with a real field: value 1 at every
    node. *)
Definition real_field_ELEMENT_b64 : @ELEMENT (binary64 no_atan2) :=
  @real_valued_ELEMENT (binary64 no_atan2) (b64 1) (b64 2) (b64 1).

Definition real_field_scenario_b64
  : @PowerMonitorElement.t (binary64 no_atan2) :=
  @real_valued_power_element (binary64 no_atan2) (b64 1) (b64 2) (b64 1).

(** A real field that overflows: the value [2^1023] at every node, a shape
    function of value 2 on the face, and a bulk element whose shape
    functions do not vary. *)
Definition overflow_ELEMENT_b64 : @ELEMENT (binary64 no_atan2) :=
  @real_valued_ELEMENT (binary64 no_atan2) (b64 1) (b64 0) (b64 (2 ^ 1023)).

Definition overflow_scenario_b64 : @PowerMonitorElement.t (binary64 no_atan2) :=
  @power_on (binary64 no_atan2)
    (@with_shape_functions (binary64 no_atan2)
       (@with_nodal_values (binary64 no_atan2)
          (@scenario_face (binary64 no_atan2) (b64 1) (b64 1) free_eqn)
          (fun _ i => if Nat.eqb i 0 then b64 (2 ^ 1023) else b64 0))
       (fun _ _ => b64 2))
    overflow_ELEMENT_b64.

(** At every integration point the shape functions of the face, the
    derivatives of the shape functions of the bulk element and the normal
    are finite numbers, the real parts of the field and of its normal
    derivative have not overflowed, and neither have [Pi * x0] and the
    weight times the Jacobian. *)
Definition finite_power_geometry {libm_atan2}
    (el : @PowerMonitorElement.t (binary64 libm_atan2))
    (bulk_elem_pt : @ELEMENT (binary64 libm_atan2)) : Prop :=
  forall ipt,
    (ipt < nweight (integral_pt (face (PowerMonitorElement.base el))))%nat ->
    (forall l, (l < nnode (face (PowerMonitorElement.base el)))%nat ->
       b64_is_finite
         (shape (face (PowerMonitorElement.base el)) (power_s el ipt) l)
       = true) /\
    (forall l i, (l < bulk_nnode bulk_elem_pt)%nat ->
       (i < bulk_dim bulk_elem_pt)%nat ->
       b64_is_finite
         (snd (bulk_dshape_eulerian bulk_elem_pt
                 (local_coordinate_in_bulk
                    (face (PowerMonitorElement.base el))
                    (power_s el ipt))) l i)
       = true) /\
    (forall i, (i < bulk_dim bulk_elem_pt)%nat ->
       b64_is_finite
         (outer_unit_normal (face (PowerMonitorElement.base el))
            (power_s el ipt) i)
       = true) /\
    b64_is_finite (real (field_value el ipt)) = true /\
    b64_is_finite (real (normal_derivative el bulk_elem_pt ipt)) = true /\
    b64_is_finite (SFmul 53 1024 M_PI (power_x el ipt 0)) = true /\
    b64_is_finite (power_W el ipt) = true.

(** * Properties *)

Unset Implicit Arguments.

(** Unfolds a scenario down to the arithmetic on the reals that is left
    to [ring]. *)
Ltac scenario_values :=
  cbv [flux_r flux_position FluxElement.calculate_coordinates
       field_value normal_derivative
       PowerMonitorElement.calculate_phi PowerMonitorElement.define_dphi_dn
       PowerMonitorElement.calculate_dphidx
       PowerMonitorElement.u_index
       PowerMonitorElement.U_index_pml_fourier_decomposed_helmholtz
       FluxElement.base PowerMonitorElement.base
       scenario_flux_element scenario_power_element build_face_element
       scenario_bulk scenario_face scenario_ELEMENT
       face face_data nnode shape nodal_position nodal_value
       outer_unit_normal local_coordinate_in_bulk
       bulk_nnode bulk_dim bulk_dshape_eulerian bulk_nodal_value bulk_u_index
       for_pure assign update nth seq fold_left Nat.eqb andb snd
       complex_add complex_times real imag
       dadd dmul dzero double reals].

(** ** Vectors *)

Lemma update_length {T} (v : Vector T) (i : nat) (x : T) :
  length (update v i x) = length v.
Proof.
  revert i; induction v as [|hd tl IH]; intros [|j]; simpl; auto.
Qed.

Lemma nth_update {T} (v : Vector T) (i k : nat) (x d : T) :
  (i < length v)%nat ->
  nth k (update v i x) d = if Nat.eqb k i then x else nth k v d.
Proof.
  revert i k; induction v as [|hd tl IH]; intros i k Hi; simpl in Hi.
  - lia.
  - destruct i as [|j], k as [|k']; simpl; auto.
    apply IH; lia.
Qed.

Lemma nth_error_update_other {T} (v : Vector T) (i k : nat) (x : T) :
  k <> i -> nth_error (update v i x) k = nth_error v k.
Proof.
  revert i k; induction v as [|hd tl IH]; intros [|j] [|k'] Hk; simpl;
    auto; try congruence.
Qed.

Lemma update_same {T} (v : Vector T) (i : nat) (x : T) :
  nth_error v i = Some x -> update v i x = v.
Proof.
  revert i; induction v as [|hd tl IH]; intros [|j] H; simpl in *;
    try congruence.
  f_equal; auto.
Qed.

Lemma nth_error_nth_in_range {T} (v : Vector T) (i : nat) (d : T) :
  (i < length v)%nat -> nth_error v i = Some (nth i v d).
Proof.
  revert i; induction v as [|hd tl IH]; intros [|j] H; simpl in *;
    try lia; auto.
  apply IH; lia.
Qed.

Lemma fold_left_ext_in {A B} (f g : A -> B -> A) (l : list B) :
  (forall a b, In b l -> f a b = g a b) ->
  forall a, fold_left f l a = fold_left g l a.
Proof.
  induction l as [|b l IH]; intros H a; simpl; auto.
  rewrite (H a b) by (left; reflexivity).
  apply IH; intros; apply H; right; assumption.
Qed.

(** ** Loops and the monad *)

Lemma keeps_ret {S A X} (f : S -> X) (a : A) : keeps f (ret a).
Proof. intros s; reflexivity. Qed.

Lemma keeps_bind {S A B X} (f : S -> X) (m : M S A) (k : A -> M S B) :
  keeps f m -> (forall a, keeps f (k a)) -> keeps f (bind m k).
Proof.
  intros Hm Hk s; unfold bind.
  specialize (Hm s); destruct (m s) as [[a|e] s']; simpl in *.
  - rewrite Hk; assumption.
  - assumption.
Qed.

Lemma keeps_foreach {S X Y} (f : S -> Y) (idx : list nat)
    (body : nat -> X -> M S X) :
  (forall i x, In i idx -> keeps f (body i x)) ->
  forall x, keeps f (foreach idx body x).
Proof.
  induction idx as [|i rest IH]; intros H x; simpl.
  - apply keeps_ret.
  - apply keeps_bind.
    + apply H; left; reflexivity.
    + intros y; apply IH; intros; apply H; right; assumption.
Qed.

Lemma respects_ret {S A} (R : S -> S -> Prop) (a : A) : respects R (ret a).
Proof. intros s s' H; split; [reflexivity | exact H]. Qed.

Lemma respects_bind {S A B} (R : S -> S -> Prop) (m : M S A)
    (k : A -> M S B) :
  respects R m -> (forall a, respects R (k a)) -> respects R (bind m k).
Proof.
  intros Hm Hk s s' H; unfold bind.
  destruct (Hm s s' H) as [Ho Hs].
  destruct (m s) as [[a|e] t], (m s') as [[a'|e'] t']; simpl in *;
    try discriminate.
  - injection Ho as ->; apply Hk; assumption.
  - injection Ho as ->; split; [reflexivity | assumption].
Qed.

Lemma respects_foreach {S X} (R : S -> S -> Prop) (idx : list nat)
    (body : nat -> X -> M S X) :
  (forall i x, respects R (body i x)) ->
  forall x, respects R (foreach idx body x).
Proof.
  intros H; induction idx as [|i rest IH]; intros x; simpl.
  - apply respects_ret.
  - apply respects_bind; auto.
Qed.

(** A loop whose body succeeds without touching the state does so too. *)
Lemma foreach_skip {S X} (idx : list nat) (body : nat -> X -> M S X) :
  (forall i x s, In i idx -> exists x', body i x s = (Normal x', s)) ->
  forall x s, exists x', foreach idx body x s = (Normal x', s).
Proof.
  induction idx as [|i rest IH]; intros H x s; simpl.
  - exists x; reflexivity.
  - unfold bind.
    destruct (H i x s (or_introl eq_refl)) as [x' ->].
    apply IH; intros; apply H; right; assumption.
Qed.

Lemma for_pure_S {X} (n : nat) (body : nat -> X -> X) (x : X) :
  for_pure (S n) body x = body n (for_pure n body x).
Proof.
  unfold for_pure; rewrite seq_S, fold_left_app; reflexivity.
Qed.

(** ** The flux element *)

Section FluxProperties.

Context {D : DoubleOps}.
Local Open Scope double_scope.

Import FluxElement.

(** After the copy loop of [shape_and_test] the test function of every node
    is its shape function. *)
Lemma test_is_shape (n : nat) (psi test : Shape) (l : nat) :
  (l < n)%nat ->
  for_pure n (fun i test => assign test i (psi i)) test l = psi l.
Proof.
  induction n as [|n IH]; intros Hl; [lia|].
  rewrite for_pure_S; unfold assign at 1.
  destruct (Nat.eqb_spec l n) as [->|Hne]; [reflexivity|].
  apply IH; lia.
Qed.

(** A guarded [residuals[local_eqn] -= term] whose equation number lies in
    the vector. *)
Lemma guarded_sub_in_range (local_eqn : Z) (term d : double) (b : Buffers) :
  (local_eqn < Z.of_nat (length (residuals b)))%Z ->
  exists res',
    (if (0 <=? local_eqn)%Z then residuals_sub local_eqn term else ret tt) b
    = (Normal tt, {| residuals := res'; jacobian := jacobian b |}) /\
    length res' = length (residuals b) /\
    forall k, (k < length (residuals b))%nat ->
      nth k res' d =
      if (local_eqn =? Z.of_nat k)%Z
      then nth k (residuals b) d - term
      else nth k (residuals b) d.
Proof.
  intros Hlt.
  destruct (Z.leb_spec 0 local_eqn) as [Hge|Hneg].
  - unfold residuals_sub.
    rewrite (nth_error_nth_in_range _ _ d) by lia.
    eexists; split; [reflexivity|].
    split; [apply update_length|].
    intros k Hk; rewrite nth_update by lia.
    destruct (Nat.eqb_spec k (Z.to_nat local_eqn)) as [->|Hne];
      destruct (Z.eqb_spec local_eqn (Z.of_nat (Z.to_nat local_eqn)));
      try lia; try reflexivity.
    destruct (Z.eqb_spec local_eqn (Z.of_nat k)); [lia | reflexivity].
  - exists (residuals b); destruct b as [res jac]; simpl.
    split; [reflexivity|].
    split; [reflexivity|].
    intros k _.
    destruct (Z.eqb_spec local_eqn (Z.of_nat k)); [lia | reflexivity].
Qed.

(** One pass of the loop over the test functions, entry by entry. *)
Lemma add_flux_terms_in_range (el : t) (flux : complex double)
    (testf : Shape) (r W d : double) (l : nat) (b : Buffers) :
  (local_eqn_real el l < Z.of_nat (length (residuals b)))%Z ->
  (local_eqn_imag el l < Z.of_nat (length (residuals b)))%Z ->
  exists res',
    add_flux_terms el flux testf r W l b
    = (Normal tt, {| residuals := res'; jacobian := jacobian b |}) /\
    length res' = length (residuals b) /\
    forall k, (k < length (residuals b))%nat ->
      nth k res' d = subtract_terms el flux testf r W k (nth k (residuals b) d) l.
Proof.
  intros Hre Him.
  unfold add_flux_terms, bind.
  fold (local_eqn_real el l); fold (local_eqn_imag el l).
  destruct (guarded_sub_in_range (local_eqn_real el l)
              (real flux * testf l * r * W) d b Hre)
    as (res1 & -> & Hlen1 & Hnth1).
  destruct (guarded_sub_in_range (local_eqn_imag el l)
              (imag flux * testf l * r * W) d
              {| residuals := res1; jacobian := jacobian b |})
    as (res2 & -> & Hlen2 & Hnth2); simpl in *.
  - rewrite Hlen1; assumption.
  - exists res2; split; [reflexivity|].
    split; [congruence|].
    intros k Hk; unfold subtract_terms.
    rewrite Hnth2 by lia.
    rewrite Hnth1 by lia.
    reflexivity.
Qed.

Lemma add_flux_terms_loop (el : t) (flux : complex double) (testf : Shape)
    (r W d : double) (nodes : list nat) :
  forall b : Buffers,
  (forall l, In l nodes ->
     (local_eqn_real el l < Z.of_nat (length (residuals b)))%Z /\
     (local_eqn_imag el l < Z.of_nat (length (residuals b)))%Z) ->
  exists res',
    foreach nodes (fun l _ => add_flux_terms el flux testf r W l) tt b
    = (Normal tt, {| residuals := res'; jacobian := jacobian b |}) /\
    length res' = length (residuals b) /\
    forall k, (k < length (residuals b))%nat ->
      nth k res' d
      = fold_left (subtract_terms el flux testf r W k) nodes
                  (nth k (residuals b) d).
Proof.
  induction nodes as [|l rest IH]; intros b Hrange.
  - exists (residuals b); destruct b; simpl; auto.
  - destruct (Hrange l (or_introl eq_refl)) as [Hre Him].
    destruct (add_flux_terms_in_range el flux testf r W d l b Hre Him)
      as (res1 & Hrun1 & Hlen1 & Hnth1).
    destruct (IH {| residuals := res1; jacobian := jacobian b |})
      as (res2 & Hrun2 & Hlen2 & Hnth2); simpl in *.
    + intros l' Hl'; rewrite Hlen1; apply Hrange; right; assumption.
    + exists res2; unfold bind; rewrite Hrun1.
      split; [exact Hrun2|].
      split; [congruence|].
      intros k Hk; rewrite Hnth2 by lia.
      rewrite Hnth1 by lia; reflexivity.
Qed.

(** One integration point, entry by entry. *)
Lemma integration_point_in_range (el : t) (d : double) (ipt : nat)
    (shapes : Shape * Shape) (b : Buffers) :
  eqns_in_range el (length (residuals b)) ->
  exists shapes' res',
    integration_point el ipt shapes b
    = (Normal shapes', {| residuals := res'; jacobian := jacobian b |}) /\
    length res' = length (residuals b) /\
    forall k, (k < length (residuals b))%nat ->
      nth k res' d
      = fold_left (subtract_at_node el ipt k)
                  (seq 0 (nnode (face (base el)))) (nth k (residuals b) d).
Proof.
  intros Hrange.
  unfold integration_point, shape_and_test, for_, bind.
  set (psif := shape (face (base el)) _).
  set (testf := for_pure _ _ _).
  destruct (add_flux_terms_loop el
              (get_flux el (calculate_coordinates el psif)
                 (Complex dzero dzero))
              testf (nth 0 (calculate_coordinates el psif) dzero)
              (weight (integral_pt (face (base el))) ipt
               * J_eulerian (face (base el))
                   (map (knot (integral_pt (face (base el))) ipt) (seq 0 1)))
              d (seq 0 (nnode (face (base el)))) b)
    as (res' & -> & Hlen & Hnth).
  - intros l Hl; apply Hrange; apply in_seq in Hl; lia.
  - exists (psif, testf), res'; split; [reflexivity|].
    split; [assumption|].
    intros k Hk; rewrite Hnth by assumption.
    apply fold_left_ext_in; intros entry l Hl.
    apply in_seq in Hl.
    unfold subtract_at_node, subtract_terms, flux_test.
    fold (flux_s el ipt); fold psif.
    subst testf; rewrite test_is_shape by lia.
    reflexivity.
Qed.

Lemma integration_loop_in_range (el : t) (d : double) (points : list nat) :
  forall (shapes : Shape * Shape) (b : Buffers),
  eqns_in_range el (length (residuals b)) ->
  exists shapes' res',
    foreach points (integration_point el) shapes b
    = (Normal shapes', {| residuals := res'; jacobian := jacobian b |}) /\
    length res' = length (residuals b) /\
    forall k, (k < length (residuals b))%nat ->
      nth k res' d
      = fold_left
          (fun entry ipt =>
             fold_left (subtract_at_node el ipt k)
                       (seq 0 (nnode (face (base el)))) entry)
          points (nth k (residuals b) d).
Proof.
  induction points as [|ipt rest IH]; intros shapes b Hrange.
  - exists shapes, (residuals b); destruct b; simpl; auto.
  - destruct (integration_point_in_range el d ipt shapes b Hrange)
      as (shapes1 & res1 & Hrun1 & Hlen1 & Hnth1).
    destruct (IH shapes1 {| residuals := res1; jacobian := jacobian b |})
      as (shapes2 & res2 & Hrun2 & Hlen2 & Hnth2); simpl in *.
    + rewrite Hlen1; assumption.
    + exists shapes2, res2; unfold bind; rewrite Hrun1.
      split; [exact Hrun2|].
      split; [congruence|].
      intros k Hk; rewrite Hnth2 by lia.
      rewrite Hnth1 by lia; reflexivity.
Qed.

(** The generic routine returns normally when the equation numbers lie in
    the residual vector, and then every entry is as [residual_entry_after]
    says. *)
Lemma generic_in_range (el : t) (flag : nat) (d : double) (b : Buffers) :
  eqns_in_range el (length (residuals b)) ->
  exists res',
    fill_in_generic_residual_contribution_pml_fourier_decomposed_helmholtz_flux
      el flag b
    = (Normal tt, {| residuals := res'; jacobian := jacobian b |}) /\
    length res' = length (residuals b) /\
    forall k, (k < length (residuals b))%nat ->
      nth k res' d = residual_entry_after el k (nth k (residuals b) d).
Proof.
  intros Hrange.
  unfold fill_in_generic_residual_contribution_pml_fourier_decomposed_helmholtz_flux,
    for_, bind.
  destruct (integration_loop_in_range el d
              (seq 0 (nweight (integral_pt (face (base el)))))
              (new_Shape, new_Shape) b Hrange)
    as (shapes' & res' & -> & Hlen & Hnth).
  exists res'; auto.
Qed.

End FluxProperties.

Section FluxFrame.

Context {D : DoubleOps}.
Local Open Scope double_scope.

Import FluxElement.

Lemma residuals_sub_keeps_jacobian (local_eqn : Z) (term : double) :
  keeps jacobian (residuals_sub local_eqn term).
Proof.
  intros b; unfold residuals_sub.
  destruct (nth_error (residuals b) (Z.to_nat local_eqn)); reflexivity.
Qed.

Lemma residuals_sub_respects (local_eqn : Z) (term : double) :
  respects (fun b b' => residuals b = residuals b')
           (residuals_sub local_eqn term).
Proof.
  intros b b' H; unfold residuals_sub; rewrite H.
  destruct (nth_error (residuals b') (Z.to_nat local_eqn)); simpl;
    split; auto; rewrite H; reflexivity.
Qed.

Lemma residuals_sub_keeps_entry (local_eqn : Z) (term : double) (k : nat) :
  local_eqn <> Z.of_nat k ->
  keeps (fun b => nth_error (residuals b) k)
        (if (0 <=? local_eqn)%Z then residuals_sub local_eqn term else ret tt).
Proof.
  intros Hne b.
  destruct (Z.leb_spec 0 local_eqn) as [Hge|Hneg]; [|reflexivity].
  unfold residuals_sub.
  destruct (nth_error (residuals b) (Z.to_nat local_eqn)); [|reflexivity].
  simpl; apply nth_error_update_other; lia.
Qed.

(** Every step of the generic routine, seen as a property [P] of
    computations that [ret], [bind] and the loops carry along. *)
Lemma generic_by_steps (P : forall A, M Buffers A -> Prop) (el : t) :
  (forall A (a : A), P A (ret a)) ->
  (forall A B (m : M Buffers A) (k : A -> M Buffers B),
     P A m -> (forall a, P B (k a)) -> P B (bind m k)) ->
  (forall ipt l testf,
     (l < nnode (face (base el)))%nat ->
     testf l = flux_test el ipt l ->
     P unit (add_flux_terms el (flux_value el ipt) testf
               (flux_r el ipt) (flux_W el ipt) l)) ->
  forall flag,
    P unit
      (fill_in_generic_residual_contribution_pml_fourier_decomposed_helmholtz_flux
         el flag).
Proof.
  intros Pret Pbind Pnode flag.
  assert (Ploop : forall X (body : nat -> X -> M Buffers X) idx,
            (forall i x, In i idx -> P X (body i x)) ->
            forall x, P X (foreach idx body x)).
  { intros X body idx; induction idx as [|i rest IH]; intros H x; simpl.
    - apply Pret.
    - apply Pbind; [apply H; left; reflexivity|].
      intros y; apply IH; intros; apply H; right; assumption. }
  unfold fill_in_generic_residual_contribution_pml_fourier_decomposed_helmholtz_flux,
    for_.
  apply Pbind; [|intros; apply Pret].
  apply Ploop; intros ipt shapes _.
  unfold integration_point, shape_and_test.
  apply Pbind; [|intros; apply Pret].
  apply Ploop; intros l [] Hl.
  apply in_seq in Hl.
  apply (Pnode ipt l); [lia|].
  apply test_is_shape; lia.
Qed.

Lemma add_flux_terms_keeps_jacobian (el : t) flux testf r W l :
  keeps jacobian (add_flux_terms el flux testf r W l).
Proof.
  unfold add_flux_terms.
  apply keeps_bind; [|intros _];
    match goal with |- keeps _ (if ?c then _ else _) => destruct c end;
    auto using residuals_sub_keeps_jacobian, keeps_ret.
Qed.

Lemma generic_keeps_jacobian (el : t) (flag : nat) :
  keeps jacobian
    (fill_in_generic_residual_contribution_pml_fourier_decomposed_helmholtz_flux
       el flag).
Proof.
  apply (generic_by_steps (fun A m => keeps jacobian m)).
  - intros; apply keeps_ret.
  - intros; apply keeps_bind; assumption.
  - intros; apply add_flux_terms_keeps_jacobian.
Qed.

Lemma generic_respects_residuals (el : t) (flag : nat) :
  respects (fun b b' => residuals b = residuals b')
    (fill_in_generic_residual_contribution_pml_fourier_decomposed_helmholtz_flux
       el flag).
Proof.
  apply (generic_by_steps
           (fun A m => respects (fun b b' => residuals b = residuals b') m)).
  - intros; apply respects_ret.
  - intros; apply respects_bind; assumption.
  - intros; unfold add_flux_terms.
    apply respects_bind; [|intros _];
      match goal with |- respects _ (if ?c then _ else _) => destruct c end;
      auto using residuals_sub_respects, respects_ret.
Qed.

Lemma generic_keeps_entry (el : t) (flag k : nat) :
  ~ addressed el k ->
  keeps (fun b => nth_error (residuals b) k)
    (fill_in_generic_residual_contribution_pml_fourier_decomposed_helmholtz_flux
       el flag).
Proof.
  intros Hfree.
  apply (generic_by_steps
           (fun A m => keeps (fun b => nth_error (residuals b) k) m)).
  - intros; apply keeps_ret.
  - intros; apply keeps_bind; assumption.
  - intros ipt l testf Hl _; unfold add_flux_terms.
    fold (local_eqn_real el l); fold (local_eqn_imag el l).
    apply keeps_bind; [|intros _].
    + apply (residuals_sub_keeps_entry (local_eqn_real el l)).
      intros Heq; apply Hfree; exists l; auto.
    + apply (residuals_sub_keeps_entry (local_eqn_imag el l)).
      intros Heq; apply Hfree; exists l; auto.
Qed.

(** A node pinned in both parts is passed over. *)
Lemma add_flux_terms_pinned (el : t) flux testf r W l (b : Buffers) :
  (local_eqn_real el l < 0)%Z -> (local_eqn_imag el l < 0)%Z ->
  add_flux_terms el flux testf r W l b = (Normal tt, b).
Proof.
  intros Hre Him; unfold add_flux_terms, bind.
  fold (local_eqn_real el l); fold (local_eqn_imag el l).
  destruct (Z.leb_spec 0 (local_eqn_real el l)); [lia|].
  destruct (Z.leb_spec 0 (local_eqn_imag el l)); [lia|].
  reflexivity.
Qed.

Lemma generic_all_pinned (el : t) (flag : nat) (b : Buffers) :
  all_pinned el ->
  fill_in_generic_residual_contribution_pml_fourier_decomposed_helmholtz_flux
    el flag b = (Normal tt, b).
Proof.
  intros Hpinned.
  unfold fill_in_generic_residual_contribution_pml_fourier_decomposed_helmholtz_flux,
    for_, bind.
  destruct (foreach_skip (seq 0 (nweight (integral_pt (face (base el)))))
              (integration_point el)) with (x := (@new_Shape D, @new_Shape D))
                                           (s := b)
    as [shapes' ->]; [|reflexivity].
  intros ipt shapes s _.
  unfold integration_point, shape_and_test, for_, bind.
  match goal with
  | |- context [foreach ?idx ?body tt s] =>
      destruct (foreach_skip idx body) with (x := tt) (s := s) as [[] ->]
  end.
  - intros l [] s' Hl; exists tt; apply in_seq in Hl.
    apply add_flux_terms_pinned; apply Hpinned; lia.
  - eexists; reflexivity.
Qed.

End FluxFrame.

(** ** The residual of the flux element *)

(** C1. Provided the equation numbers of the nodes lie inside the residual
    vector, [fill_in_contribution_to_residuals] returns normally, keeps the
    length of the vector, and leaves in every entry what
    [residual_entry_after] says: for every integration point and every
    node [l], [flux.real() * test(l) * r * (w * J)] has been taken off the
    entry of the real equation number of [l] and the same with
    [flux.imag()] off the entry of its imaginary one.  In particular, in
    exact arithmetic, with one integration point of weight 1 and Jacobian 1,
    one node of test function 1, radial coordinate 2, the constant flux
    (3, -4) and the equation numbers 0 and 1, entry 0 loses 6 and entry 1
    gains 8. *)
Theorem flux_residual_contribution :
  (forall (D : DoubleOps) (el : FluxElement.t) (res : Vector double),
     eqns_in_range el (length res) ->
     exists res',
       FluxElement.fill_in_contribution_to_residuals el res
       = (Normal tt, res') /\
       length res' = length res /\
       forall k, (k < length res)%nat ->
         nth k res' dzero = residual_entry_after el k (nth k res dzero)) /\
  (forall (el : @FluxElement.t reals) (fct : FluxElement.PrescribedFluxFctPt)
          (r0 r1 : R) (rest : list R),
     nweight (integral_pt (face (FluxElement.base el))) = 1%nat ->
     weight (integral_pt (face (FluxElement.base el))) 0 = 1%R ->
     J_eulerian (face (FluxElement.base el)) (flux_s el 0) = 1%R ->
     nnode (face (FluxElement.base el)) = 1%nat ->
     flux_test el 0 0 = 1%R ->
     flux_r el 0 = 2%R ->
     FluxElement.Flux_fct_pt el = Some fct ->
     (forall x flux, fct x flux = Complex 3%R (-4)%R) ->
     local_eqn_real el 0 = 0%Z ->
     local_eqn_imag el 0 = 1%Z ->
     FluxElement.fill_in_contribution_to_residuals el (r0 :: r1 :: rest)
     = (Normal tt, (r0 - 6)%R :: (r1 + 8)%R :: rest)).
Proof.
  assert (General :
    forall (D : DoubleOps) (el : FluxElement.t) (res : Vector double),
      eqns_in_range el (length res) ->
      exists res',
        FluxElement.fill_in_contribution_to_residuals el res
        = (Normal tt, res') /\
        length res' = length res /\
        forall k, (k < length res)%nat ->
          nth k res' dzero = residual_entry_after el k (nth k res dzero)).
  { intros D el res Hrange.
    destruct (generic_in_range el 0 dzero
                {| FluxElement.residuals := res;
                   FluxElement.jacobian := Dummy_matrix |} Hrange)
      as (res' & Hrun & Hlen & Hnth).
    exists res'; unfold FluxElement.fill_in_contribution_to_residuals.
    rewrite Hrun; auto. }
  split; [exact General|].
  intros el fct r0 r1 rest Hn Hw HJ Hnode Htest Hr Hfct Hconst Hre Him.
  destruct (General reals el (r0 :: r1 :: rest)) as (res' & -> & Hlen & Hnth).
  { intros l Hl; rewrite Hnode in Hl.
    assert (l = 0%nat) as -> by lia.
    rewrite Hre, Him; simpl; lia. }
  f_equal.
  apply (nth_ext _ _ (@dzero reals) (@dzero reals)).
  { exact Hlen. }
  intros k Hk; rewrite Hlen in Hk; rewrite (Hnth k Hk).
  unfold residual_entry_after; rewrite Hn, Hnode; simpl fold_left.
  unfold subtract_at_node, subtract_terms, flux_W, flux_value,
    FluxElement.get_flux.
  rewrite Hre, Him, Htest, Hr, Hw, HJ, Hfct, Hconst; simpl real; simpl imag.
  cbv zeta.
  destruct k as [|[|k]].
  - simpl; cbv [dsub dmul reals]; ring.
  - simpl; cbv [dsub dmul reals]; ring.
  - destruct (Z.eqb_spec 0 (Z.of_nat (S (S k)))); [lia|].
    destruct (Z.eqb_spec 1 (Z.of_nat (S (S k)))); [lia|].
    reflexivity.
Qed.

Lemma flux_residual_contribution_witness :
  eqns_in_range flux_scenario_R 2 /\
  (exists res',
     FluxElement.fill_in_contribution_to_residuals flux_scenario_R [0%R; 0%R]
     = (Normal tt, res') /\
     length res' = 2%nat /\
     forall k, (k < 2)%nat ->
       nth k res' 0%R
       = residual_entry_after flux_scenario_R k (nth k [0%R; 0%R] 0%R)) /\
  FluxElement.fill_in_contribution_to_residuals flux_scenario_R [0%R; 0%R]
  = (Normal tt, [(0 - 6)%R; (0 + 8)%R]).
Proof.
  assert (Hrange : eqns_in_range flux_scenario_R 2).
  { intros l _; split; cbv; reflexivity. }
  split; [exact Hrange|]; split.
  - exact (proj1 flux_residual_contribution reals flux_scenario_R
             [0%R; 0%R] Hrange).
  - apply (proj2 flux_residual_contribution flux_scenario_R
             (fun _ _ => Complex 3%R (-4)%R) 0%R 0%R []);
      try reflexivity.
    unfold flux_scenario_R; scenario_values.
    ring.
Defined.

(** The flux scenario run on IEEE binary64 numbers: the products and the
    differences are exact there. *)
Example flux_scenario_binary64 :
  forall libm_atan2,
    FluxElement.fill_in_contribution_to_residuals
      (flux_scenario_b64 libm_atan2) [b64 0; b64 0]
    = (Normal tt, [b64 (-6); b64 8]).
Proof. intros; vm_compute; reflexivity. Qed.

(** C3. [fill_in_contribution_to_jacobian] adds nothing to the Jacobian,
    whatever the element, the residual vector and the matrix passed in: the
    matrix comes back as it was, so the matrix of zeros that the caller
    prepares comes back as the matrix of zeros; and the call returns
    normally as soon as the equation numbers lie inside the residual
    vector. *)
Theorem jacobian_contribution_is_zero :
  forall (D : DoubleOps) (el : FluxElement.t) (res : Vector double)
         (jac : DenseMatrix),
    FluxElement.jacobian
      (snd (FluxElement.fill_in_contribution_to_jacobian el
              {| FluxElement.residuals := res; FluxElement.jacobian := jac |}))
    = jac /\
    (forall nrow ncol,
       FluxElement.jacobian
         (snd (FluxElement.fill_in_contribution_to_jacobian el
                 {| FluxElement.residuals := res;
                    FluxElement.jacobian := zero_matrix nrow ncol |}))
       = zero_matrix nrow ncol) /\
    (eqns_in_range el (length res) ->
     fst (FluxElement.fill_in_contribution_to_jacobian el
            {| FluxElement.residuals := res; FluxElement.jacobian := jac |})
     = Normal tt).
Proof.
  intros D el res jac; unfold FluxElement.fill_in_contribution_to_jacobian.
  split; [|split].
  - apply (generic_keeps_jacobian el 1).
  - intros nrow ncol; apply (generic_keeps_jacobian el 1).
  - intros Hrange.
    destruct (generic_in_range el 1 dzero
                {| FluxElement.residuals := res;
                   FluxElement.jacobian := jac |} Hrange)
      as (res' & -> & _); reflexivity.
Qed.

Lemma jacobian_contribution_is_zero_witness :
  eqns_in_range flux_scenario_R 2 /\
  fst (@FluxElement.fill_in_contribution_to_jacobian reals flux_scenario_R
         (@FluxElement.Build_Buffers reals [0%R; 0%R] (@zero_matrix reals 2 2)))
  = Normal tt.
Proof.
  assert (Hrange : eqns_in_range flux_scenario_R 2).
  { intros l _; split; cbv; reflexivity. }
  split; [exact Hrange|].
  exact (proj2 (proj2 (jacobian_contribution_is_zero reals flux_scenario_R
                         [0%R; 0%R] (@zero_matrix reals 2 2))) Hrange).
Defined.

(** C5. A part of the unknown whose equation number at a node is negative
    is passed over: with a negative real number only the guarded
    subtraction of the imaginary part is left, and conversely; on a face
    whose nodes are all pinned the generic routine and
    [fill_in_contribution_to_residuals] return with the buffers as they
    found them; and in general no entry changes unless it is addressed by
    the (then non-negative) equation number of some node. *)
Theorem pinned_dofs_receive_nothing :
  forall (D : DoubleOps) (el : FluxElement.t) (flag : nat)
         (b : FluxElement.Buffers),
    (forall flux testf r W l,
       (local_eqn_real el l < 0)%Z ->
       FluxElement.add_flux_terms el flux testf r W l b
       = (if (0 <=? local_eqn_imag el l)%Z
          then FluxElement.residuals_sub (local_eqn_imag el l)
                 (imag flux * testf l * r * W)%D
          else ret tt) b) /\
    (forall flux testf r W l,
       (local_eqn_imag el l < 0)%Z ->
       FluxElement.add_flux_terms el flux testf r W l b
       = (if (0 <=? local_eqn_real el l)%Z
          then FluxElement.residuals_sub (local_eqn_real el l)
                 (real flux * testf l * r * W)%D
          else ret tt) b) /\
    (all_pinned el ->
     FluxElement.fill_in_generic_residual_contribution_pml_fourier_decomposed_helmholtz_flux
       el flag b = (Normal tt, b)) /\
    (all_pinned el ->
     FluxElement.fill_in_contribution_to_residuals el (FluxElement.residuals b)
     = (Normal tt, FluxElement.residuals b)) /\
    (forall k, ~ addressed el k ->
       nth_error
         (FluxElement.residuals
            (snd (FluxElement.fill_in_generic_residual_contribution_pml_fourier_decomposed_helmholtz_flux
                    el flag b))) k
       = nth_error (FluxElement.residuals b) k).
Proof.
  intros D el flag b; repeat split.
  - intros flux testf r W l Hneg.
    unfold FluxElement.add_flux_terms, bind.
    fold (local_eqn_real el l); fold (local_eqn_imag el l).
    destruct (Z.leb_spec 0 (local_eqn_real el l)); [lia | reflexivity].
  - intros flux testf r W l Hneg.
    unfold FluxElement.add_flux_terms, bind.
    fold (local_eqn_real el l); fold (local_eqn_imag el l).
    destruct (Z.leb_spec 0 (local_eqn_imag el l)); [lia|].
    match goal with |- match ?m with _ => _ end = _ =>
      destruct m as [[[]|f] b']
    end; reflexivity.
  - intros Hpinned; apply generic_all_pinned; assumption.
  - intros Hpinned; unfold FluxElement.fill_in_contribution_to_residuals.
    rewrite generic_all_pinned by assumption; reflexivity.
  - intros k Hfree; apply (generic_keeps_entry el flag k Hfree b).
Qed.

Lemma pinned_dofs_receive_nothing_witness :
  all_pinned pinned_scenario_R /\
  ~ addressed pinned_scenario_R 0 /\
  @FluxElement.fill_in_generic_residual_contribution_pml_fourier_decomposed_helmholtz_flux
    reals pinned_scenario_R 0
    (@FluxElement.Build_Buffers reals [5%R; 7%R] (@Dummy_matrix reals))
  = (Normal tt,
     @FluxElement.Build_Buffers reals [5%R; 7%R] (@Dummy_matrix reals)) /\
  nth_error
    (FluxElement.residuals
       (snd (@FluxElement.fill_in_generic_residual_contribution_pml_fourier_decomposed_helmholtz_flux
               reals pinned_scenario_R 0
               (@FluxElement.Build_Buffers reals [5%R; 7%R]
                  (@Dummy_matrix reals))))) 0
  = Some 5%R.
Proof.
  assert (Hpinned : all_pinned pinned_scenario_R).
  { intros l _; split; cbv; reflexivity. }
  assert (Hfree : ~ addressed pinned_scenario_R 0).
  { intros (l & _ & [H|H]); cbv in H; discriminate H. }
  split; [exact Hpinned|]; split; [exact Hfree|]; split.
  - exact (proj1 (proj2 (proj2 (pinned_dofs_receive_nothing reals
             pinned_scenario_R 0%nat
             (@FluxElement.Build_Buffers reals [5%R; 7%R]
                (@Dummy_matrix reals))))) Hpinned).
  - exact (proj2 (proj2 (proj2 (proj2 (pinned_dofs_receive_nothing reals
             pinned_scenario_R 0%nat
             (@FluxElement.Build_Buffers reals [5%R; 7%R]
                (@Dummy_matrix reals)))))) 0%nat Hfree).
Defined.

(** C10. [fill_in_contribution_to_jacobian] leaves the same outcome and
    the same residual vector as [fill_in_contribution_to_residuals] does on
    the same input, the generic routine does not depend on its flag, and
    the Jacobian passed in comes back as it was. *)
Theorem jacobian_call_updates_residuals_alike :
  forall (D : DoubleOps) (el : FluxElement.t) (res : Vector double)
         (jac : DenseMatrix),
    FluxElement.fill_in_contribution_to_residuals el res
    = (fst (FluxElement.fill_in_contribution_to_jacobian el
              {| FluxElement.residuals := res; FluxElement.jacobian := jac |}),
       FluxElement.residuals
         (snd (FluxElement.fill_in_contribution_to_jacobian el
                 {| FluxElement.residuals := res;
                    FluxElement.jacobian := jac |}))) /\
    FluxElement.jacobian
      (snd (FluxElement.fill_in_contribution_to_jacobian el
              {| FluxElement.residuals := res; FluxElement.jacobian := jac |}))
    = jac /\
    (forall flag flag' b,
       FluxElement.fill_in_generic_residual_contribution_pml_fourier_decomposed_helmholtz_flux
         el flag b
       = FluxElement.fill_in_generic_residual_contribution_pml_fourier_decomposed_helmholtz_flux
           el flag' b).
Proof.
  intros D el res jac; split; [|split].
  - unfold FluxElement.fill_in_contribution_to_residuals,
      FluxElement.fill_in_contribution_to_jacobian.
    destruct (generic_respects_residuals el 0
                {| FluxElement.residuals := res;
                   FluxElement.jacobian := Dummy_matrix |}
                {| FluxElement.residuals := res;
                   FluxElement.jacobian := jac |} eq_refl) as [Hout Hres].
    change (FluxElement.fill_in_generic_residual_contribution_pml_fourier_decomposed_helmholtz_flux
              el 1)
      with (FluxElement.fill_in_generic_residual_contribution_pml_fourier_decomposed_helmholtz_flux
              el 0).
    destruct (FluxElement.fill_in_generic_residual_contribution_pml_fourier_decomposed_helmholtz_flux
                el 0
                {| FluxElement.residuals := res;
                   FluxElement.jacobian := Dummy_matrix |}) as [out b'].
    simpl in *; rewrite Hout, Hres; reflexivity.
  - apply (generic_keeps_jacobian el 1).
  - reflexivity.
Qed.

(** ** The constructors *)

(** C6. The empty constructors of both classes throw an [OomphLibError]
    (the specification's ConfigurationError) and produce no element. *)
Theorem empty_constructors_fail :
  forall D : DoubleOps,
    ConfigurationError (@FluxElement.empty_constructor D) /\
    produced (@FluxElement.empty_constructor D) = None /\
    ConfigurationError (@PowerMonitorElement.empty_constructor D) /\
    produced (@PowerMonitorElement.empty_constructor D) = None.
Proof.
  intros D; repeat split; try (eexists; reflexivity).
Qed.

(** C7. Both constructors throw an [OomphLibError] when the bulk element
    cannot be cast to [PMLFourierDecomposedHelmholtzEquations]; otherwise
    they return an element on the face that the bulk element built, which
    holds the pair of indices read from the bulk element (and, for the flux
    element, no flux function yet). *)
Theorem constructors_need_the_equations :
  forall (D : DoubleOps) (bulk_el_pt : FiniteElement) (face_index : Z),
    (cast_to_equations bulk_el_pt = None ->
     ConfigurationError (FluxElement.constructor bulk_el_pt face_index) /\
     produced (FluxElement.constructor bulk_el_pt face_index) = None /\
     ConfigurationError (PowerMonitorElement.constructor bulk_el_pt face_index) /\
     produced (PowerMonitorElement.constructor bulk_el_pt face_index) = None) /\
    (forall eqn_pt,
       cast_to_equations bulk_el_pt = Some eqn_pt ->
       (exists el,
          FluxElement.constructor bulk_el_pt face_index = Normal el /\
          FluxElement.U_index_pml_fourier_decomposed_helmholtz el
          = u_index_pml_fourier_decomposed_helmholtz eqn_pt /\
          FluxElement.base el = build_face_element bulk_el_pt face_index /\
          FluxElement.Flux_fct_pt el = None) /\
       (exists el,
          PowerMonitorElement.constructor bulk_el_pt face_index = Normal el /\
          PowerMonitorElement.U_index_pml_fourier_decomposed_helmholtz el
          = u_index_pml_fourier_decomposed_helmholtz eqn_pt /\
          PowerMonitorElement.base el
          = build_face_element bulk_el_pt face_index)).
Proof.
  intros D bulk_el_pt face_index; split.
  - intros Hcast.
    unfold FluxElement.constructor, PowerMonitorElement.constructor.
    rewrite Hcast; repeat split; eexists; reflexivity.
  - intros eqn_pt Hcast.
    unfold FluxElement.constructor, PowerMonitorElement.constructor.
    rewrite Hcast; split; eexists; repeat split.
Qed.

Lemma constructors_need_the_equations_witness :
  cast_to_equations (@scenario_bulk reals 1%R 2%R 2%R free_eqn false) = None /\
  ConfigurationError
    (FluxElement.constructor
       (@scenario_bulk reals 1%R 2%R 2%R free_eqn false) 0) /\
  cast_to_equations (@scenario_bulk reals 1%R 2%R 2%R free_eqn true)
  = Some {| u_index_pml_fourier_decomposed_helmholtz := Complex 0%nat 1%nat |} /\
  exists el,
    PowerMonitorElement.constructor
      (@scenario_bulk reals 1%R 2%R 2%R free_eqn true) 0 = Normal el /\
    PowerMonitorElement.U_index_pml_fourier_decomposed_helmholtz el
    = Complex 0%nat 1%nat /\
    PowerMonitorElement.base el
    = build_face_element (@scenario_bulk reals 1%R 2%R 2%R free_eqn true) 0.
Proof.
  split; [reflexivity|]; split; [|split; [reflexivity|]].
  - exact (proj1 (proj1 (constructors_need_the_equations reals
             (@scenario_bulk reals 1%R 2%R 2%R free_eqn false) 0%Z) eq_refl)).
  - exact (proj2 (proj2 (constructors_need_the_equations reals
             (@scenario_bulk reals 1%R 2%R 2%R free_eqn true) 0%Z)
             {| u_index_pml_fourier_decomposed_helmholtz :=
                  Complex 0%nat 1%nat |} eq_refl)).
Defined.

(** ** The power monitor *)

Section PowerProperties.

Context {D : DoubleOps}.
Local Open Scope double_scope.

Import PowerMonitorElement.

Lemma put_after (item : Item) (outfile : ofstream) (records : list Item) :
  put item (after_records outfile records)
  = (Normal tt, after_records outfile (records ++ [item])).
Proof.
  unfold put, after_records.
  destruct (is_open outfile) eqn:Hopen; simpl.
  - rewrite <- app_assoc; reflexivity.
  - rewrite Hopen; reflexivity.
Qed.

Lemma after_no_records (outfile : ofstream) :
  after_records outfile [] = outfile.
Proof.
  unfold after_records; destruct outfile as [[|] w]; simpl;
    [rewrite app_nil_r|]; reflexivity.
Qed.

Lemma after_records_app (outfile : ofstream) (r1 r2 : list Item) :
  after_records (after_records outfile r1) r2 = after_records outfile (r1 ++ r2).
Proof.
  unfold after_records; destruct (is_open outfile) eqn:Hopen; simpl.
  - rewrite <- app_assoc; reflexivity.
  - rewrite Hopen; reflexivity.
Qed.

(** One integration point of a bulk element with at least two
    directions: the power gains [Pi * x0 * integrand * W] and an open file
    gains the record of the point. *)
Lemma integration_point_run (el : t) (bulk_elem_pt : ELEMENT) (ipt : nat)
    (power : double) (outfile : ofstream) :
  (2 <= bulk_dim bulk_elem_pt)%nat ->
  integration_point el bulk_elem_pt ipt power outfile
  = (Normal (power + Pi * power_x el ipt 0
                     * integrand_at el bulk_elem_pt ipt * power_W el ipt),
     after_records outfile (power_record el bulk_elem_pt ipt)).
Proof.
  intros Hdim.
  unfold power_record, integration_point, integrand_at, normal_derivative,
    field_value, power_x, power_W.
  fold (power_s el ipt).
  destruct (bulk_dshape_eulerian bulk_elem_pt
              (local_coordinate_in_bulk (face (base el)) (power_s el ipt)))
    as [psi_bulk dpsi_bulk_dx]; simpl snd.
  unfold index.
  destruct (Nat.ltb_spec 0 (bulk_dim bulk_elem_pt)); [|lia].
  destruct (Nat.ltb_spec 1 (bulk_dim bulk_elem_pt)); [|lia].
  unfold bind at 1 2 3; simpl.
  destruct (is_open outfile) eqn:Hopen.
  - rewrite <- (after_no_records outfile) at 1.
    unfold bind.
    repeat rewrite put_after.
    reflexivity.
  - unfold bind, after_records; simpl; rewrite Hopen; reflexivity.
Qed.

Lemma integration_loop_run (el : t) (bulk_elem_pt : ELEMENT)
    (points : list nat) :
  (2 <= bulk_dim bulk_elem_pt)%nat ->
  forall (power : double) (outfile : ofstream),
    foreach points (integration_point el bulk_elem_pt) power outfile
    = (Normal
         (fold_left
            (fun power ipt =>
               power + Pi * power_x el ipt 0
                       * integrand_at el bulk_elem_pt ipt * power_W el ipt)
            points power),
       after_records outfile
         (concat (map (power_record el bulk_elem_pt) points))).
Proof.
  intros Hdim; induction points as [|ipt rest IH]; intros power outfile.
  - simpl; rewrite after_no_records; reflexivity.
  - simpl foreach; unfold bind.
    rewrite integration_point_run by assumption.
    rewrite IH, after_records_app; reflexivity.
Qed.

(** The whole routine on a bulk element of the expected type with at least
    two directions. *)
Lemma global_power_contribution_run (el : t) (bulk_elem_pt : ELEMENT)
    (outfile : ofstream) :
  cast_to_ELEMENT (bulk_element_pt (base el)) = Some bulk_elem_pt ->
  (2 <= bulk_dim bulk_elem_pt)%nat ->
  global_power_contribution el outfile
  = (Normal (power_sum el bulk_elem_pt),
     after_records outfile
       (Text zone_line
        :: concat (map (power_record el bulk_elem_pt)
                       (seq 0 (nweight (integral_pt (face (base el)))))))).
Proof.
  intros Hcast Hdim.
  unfold global_power_contribution; rewrite Hcast.
  unfold bind at 1 2, outfile_is_open, for_; simpl.
  destruct (is_open outfile) eqn:Hopen.
  - rewrite <- (after_no_records outfile) at 1.
    rewrite put_after.
    rewrite integration_loop_run, after_records_app by assumption.
    reflexivity.
  - simpl; rewrite integration_loop_run by assumption.
    unfold after_records; rewrite Hopen; reflexivity.
Qed.

(** *** Files that are not open *)

Lemma quiet_ret {A} (a : A) : quiet (ret a).
Proof. intros outfile _; reflexivity. Qed.

Lemma quiet_fail {A} (f : Failure) : quiet (@fail ofstream A f).
Proof. intros outfile _; reflexivity. Qed.

Lemma quiet_bind {A B} (m : M ofstream A) (k : A -> M ofstream B) :
  quiet m -> (forall a, quiet (k a)) -> quiet (bind m k).
Proof.
  intros Hm Hk outfile Hclosed; unfold bind.
  rewrite (Hm outfile Hclosed).
  rewrite (Hm dummy_outfile eq_refl).
  destruct (fst (m dummy_outfile)) as [a|f]; simpl.
  - apply Hk; assumption.
  - reflexivity.
Qed.

Lemma quiet_foreach {X} (idx : list nat) (body : nat -> X -> M ofstream X) :
  (forall i x, quiet (body i x)) -> forall x, quiet (foreach idx body x).
Proof.
  intros H; induction idx as [|i rest IH]; intros x; simpl.
  - apply quiet_ret.
  - apply quiet_bind; auto.
Qed.

Lemma quiet_put (item : Item) : quiet (put item).
Proof.
  intros outfile Hclosed; unfold put; rewrite Hclosed; reflexivity.
Qed.

Lemma quiet_outfile_is_open : quiet outfile_is_open.
Proof.
  intros outfile Hclosed; unfold outfile_is_open; rewrite Hclosed; reflexivity.
Qed.

Lemma quiet_index (size : nat) (x : nat -> double) (i : nat) :
  quiet (index size x i).
Proof.
  unfold index; destruct (Nat.ltb i size);
    [apply quiet_ret | apply quiet_fail].
Qed.

Lemma quiet_integration_point (el : t) (bulk_elem_pt : ELEMENT) (ipt : nat)
    (power : double) :
  quiet (integration_point el bulk_elem_pt ipt power).
Proof.
  unfold integration_point.
  destruct (bulk_dshape_eulerian bulk_elem_pt _) as [psi_bulk dpsi_bulk_dx].
  apply quiet_bind; [apply quiet_index | intros x0].
  apply quiet_bind; [apply quiet_index | intros x1].
  apply quiet_bind; [apply quiet_outfile_is_open | intros open].
  apply quiet_bind; [|intros _; apply quiet_ret].
  destruct open; [|apply quiet_ret].
  repeat (apply quiet_bind; [apply quiet_put | intros _]).
  apply quiet_put.
Qed.

Lemma quiet_global_power_contribution (el : t) :
  quiet (global_power_contribution el).
Proof.
  unfold global_power_contribution.
  destruct (cast_to_ELEMENT (bulk_element_pt (base el))) as [bulk_elem_pt|];
    [|apply quiet_fail].
  apply quiet_bind; [apply quiet_outfile_is_open | intros open].
  apply quiet_bind.
  - destruct open; [apply quiet_put | apply quiet_ret].
  - intros _; apply quiet_foreach; intros; apply quiet_integration_point.
Qed.

End PowerProperties.

(** C2. On a bulk element of the expected type with at least two
    directions, [global_power_contribution], with or without an output
    file, returns [power_sum]: the sum, over the integration points in
    order and started from zero, of [Pi * x0 * integrand * (w * J)], where
    the integrand is
    [Re(field) * Im(normal derivative) - Im(field) * Re(normal derivative)].
    In particular, in exact arithmetic, with one integration point of
    weight 1 and Jacobian 1, the field value (1, 0), the normal derivative
    (0, 2) and x0 = 1, the power returned is 2 pi. *)
Theorem power_contribution_is_the_weighted_sum :
  (forall (D : DoubleOps) (el : PowerMonitorElement.t) (bulk_elem_pt : ELEMENT)
          (outfile : PowerMonitorElement.ofstream) (ipt : nat),
     cast_to_ELEMENT (bulk_element_pt (PowerMonitorElement.base el))
     = Some bulk_elem_pt ->
     (2 <= bulk_dim bulk_elem_pt)%nat ->
     integrand_at el bulk_elem_pt ipt
     = (real (field_value el ipt) * imag (normal_derivative el bulk_elem_pt ipt)
        - imag (field_value el ipt) * real (normal_derivative el bulk_elem_pt ipt))%D /\
     fst (PowerMonitorElement.integration_point el bulk_elem_pt ipt dzero outfile)
     = Normal (dzero + Pi * power_x el ipt 0 * integrand_at el bulk_elem_pt ipt
                       * power_W el ipt)%D /\
     fst (PowerMonitorElement.global_power_contribution el outfile)
     = Normal (power_sum el bulk_elem_pt) /\
     PowerMonitorElement.global_power_contribution_dummy el
     = Normal (power_sum el bulk_elem_pt)) /\
  (forall (el : @PowerMonitorElement.t reals) (bulk_elem_pt : @ELEMENT reals)
          (outfile : @PowerMonitorElement.ofstream reals),
     cast_to_ELEMENT (bulk_element_pt (PowerMonitorElement.base el))
     = Some bulk_elem_pt ->
     (2 <= bulk_dim bulk_elem_pt)%nat ->
     nweight (integral_pt (face (PowerMonitorElement.base el))) = 1%nat ->
     weight (integral_pt (face (PowerMonitorElement.base el))) 0 = 1%R ->
     J_eulerian (face (PowerMonitorElement.base el)) (power_s el 0) = 1%R ->
     field_value el 0 = Complex 1%R 0%R ->
     normal_derivative el bulk_elem_pt 0 = Complex 0%R 2%R ->
     power_x el 0 0 = 1%R ->
     fst (PowerMonitorElement.global_power_contribution el outfile)
     = Normal (2 * PI)%R).
Proof.
  split.
  - intros D el bulk_elem_pt outfile ipt Hcast Hdim.
    split; [reflexivity|]; split; [|split].
    + rewrite integration_point_run by assumption; reflexivity.
    + rewrite (global_power_contribution_run el bulk_elem_pt) by assumption.
      reflexivity.
    + unfold PowerMonitorElement.global_power_contribution_dummy.
      rewrite (global_power_contribution_run el bulk_elem_pt) by assumption.
      reflexivity.
  - intros el bulk_elem_pt outfile Hcast Hdim Hn Hw HJ Hphi Hdn Hx.
    rewrite (global_power_contribution_run el bulk_elem_pt) by assumption.
    unfold power_sum, integrand_at, power_W,
      PowerMonitorElement.power_density.
    rewrite Hn; simpl fold_left.
    rewrite Hphi, Hdn, Hx, Hw, HJ; simpl.
    f_equal; cbv [dadd dsub dmul dzero Pi Pi_exact reals]; ring.
Qed.

Lemma power_contribution_is_the_weighted_sum_witness :
  cast_to_ELEMENT (bulk_element_pt (PowerMonitorElement.base power_scenario_R))
  = Some (@scenario_ELEMENT reals 1%R 2%R) /\
  PowerMonitorElement.global_power_contribution_dummy power_scenario_R
  = Normal (power_sum power_scenario_R (@scenario_ELEMENT reals 1%R 2%R)) /\
  fst (PowerMonitorElement.global_power_contribution power_scenario_R
         PowerMonitorElement.dummy_outfile)
  = Normal (2 * PI)%R.
Proof.
  split; [reflexivity|]; split.
  - exact (proj2 (proj2 (proj2 (proj1 power_contribution_is_the_weighted_sum
             reals power_scenario_R (@scenario_ELEMENT reals 1%R 2%R)
             PowerMonitorElement.dummy_outfile 0%nat eq_refl (le_n 2))))).
  - apply (proj2 power_contribution_is_the_weighted_sum power_scenario_R
             (@scenario_ELEMENT reals 1%R 2%R)
             PowerMonitorElement.dummy_outfile);
      try reflexivity.
    + unfold power_scenario_R; scenario_values.
      f_equal; ring.
    + unfold power_scenario_R; scenario_values.
      f_equal; ring.
Defined.

(** The power scenario run on IEEE binary64 numbers: the result is twice
    the [double] nearest to pi, exactly. *)
Example power_scenario_binary64 :
  forall libm_atan2,
    PowerMonitorElement.global_power_contribution_dummy
      (power_scenario_b64 libm_atan2)
    = Normal (SFmul 53 1024 (b64 2) M_PI).
Proof. intros; vm_compute; reflexivity. Qed.

(** C8. On an output file that is not open, [global_power_contribution]
    returns exactly what the call without an output file returns, failure
    included, and leaves the file as it is: nothing goes into it. *)
Theorem closed_outfile_is_no_outfile :
  forall (D : DoubleOps) (el : PowerMonitorElement.t)
         (outfile : PowerMonitorElement.ofstream),
    PowerMonitorElement.is_open outfile = false ->
    PowerMonitorElement.global_power_contribution el outfile
    = (PowerMonitorElement.global_power_contribution_dummy el, outfile).
Proof.
  intros D el outfile Hclosed.
  apply quiet_global_power_contribution; assumption.
Qed.

Lemma closed_outfile_is_no_outfile_witness :
  @PowerMonitorElement.global_power_contribution reals power_scenario_R
    (@PowerMonitorElement.Build_ofstream reals false
       [PowerMonitorElement.Text "earlier"])
  = (PowerMonitorElement.global_power_contribution_dummy power_scenario_R,
     @PowerMonitorElement.Build_ofstream reals false
       [PowerMonitorElement.Text "earlier"]).
Proof.
  exact (closed_outfile_is_no_outfile reals power_scenario_R
           (@PowerMonitorElement.Build_ofstream reals false
              [PowerMonitorElement.Text "earlier"]) eq_refl).
Defined.

(** ** The two cancellations on IEEE binary64

    The properties of the null flux and of the real field rest on
    [0 * x = 0] and [x - 0 = x].  On binary64 numbers both hold for finite
    [x], up to the sign of zero. *)

Section Binary64.

Variable libm_atan2 : spec_float -> spec_float -> spec_float.

Lemma b64_zero_times_finite (x y : spec_float) :
  b64_is_zero x = true -> b64_is_finite y = true ->
  b64_is_zero (SFmul 53 1024 x y) = true.
Proof.
  destruct x, y; simpl; intros; try discriminate; reflexivity.
Qed.

Lemma b64_finite_times_zero (x y : spec_float) :
  b64_is_finite x = true -> b64_is_zero y = true ->
  b64_is_zero (SFmul 53 1024 x y) = true.
Proof.
  destruct x, y; simpl; intros; try discriminate; reflexivity.
Qed.









(** On binary64, finite real parts and zero imaginary parts give a zero
    power density. *)
Lemma real_field_binary64 (phi dphi_dn : complex spec_float) :
  b64_is_zero (imag phi) = true -> b64_is_zero (imag dphi_dn) = true ->
  b64_is_finite (real phi) = true -> b64_is_finite (real dphi_dn) = true ->
  b64_is_zero
    (@PowerMonitorElement.power_density (binary64 libm_atan2) phi dphi_dn)
  = true.
Proof.
  destruct phi as [phi_re phi_im], dphi_dn as [dn_re dn_im].
  unfold PowerMonitorElement.power_density; cbv [dsub dmul binary64 real imag].
  intros Hphi Hdn Hre Hdre.
  assert (H1 := b64_finite_times_zero _ _ Hre Hdn).
  assert (H2 := b64_zero_times_finite _ _ Hphi Hdre).
  destruct (SFmul 53 1024 phi_re dn_im) as [[|]| | |]; try discriminate;
    destruct (SFmul 53 1024 phi_im dn_re) as [[|]| | |]; try discriminate;
    reflexivity.
Qed.

End Binary64.

Lemma b64_plus_zero (x z : spec_float) :
  b64_is_zero z = true -> same_number x (SFadd 53 1024 x z).
Proof.
  destruct z as [sz| | |]; simpl; intros; try discriminate.
  destruct x as [[|]| | |]; destruct sz; simpl;
    solve [left; reflexivity | right; split; reflexivity].
Qed.

Lemma b64_add_zeros (x y : spec_float) :
  b64_is_zero x = true -> b64_is_zero y = true ->
  b64_is_zero (SFadd 53 1024 x y) = true.
Proof.
  destruct x as [[|]| | |], y as [[|]| | |]; simpl; intros;
    try discriminate; reflexivity.
Qed.




(** C9. On binary64 numbers, at an integration point where the
    reconstructed field and the reconstructed normal derivative have zero
    imaginary parts and real parts that have not overflowed, the power
    density is a zero; and when moreover the bulk element has at least two
    directions and [Pi * x0] and the weight times the Jacobian are finite,
    that integration point leaves the running power the same number. *)
Theorem real_field_has_zero_integrand :
  forall (libm_atan2 : spec_float -> spec_float -> spec_float)
         (el : @PowerMonitorElement.t (binary64 libm_atan2))
         (bulk_elem_pt : @ELEMENT (binary64 libm_atan2)) (ipt : nat),
    b64_is_zero (imag (field_value el ipt)) = true ->
    b64_is_zero (imag (normal_derivative el bulk_elem_pt ipt)) = true ->
    b64_is_finite (real (field_value el ipt)) = true ->
    b64_is_finite (real (normal_derivative el bulk_elem_pt ipt)) = true ->
    b64_is_zero (integrand_at el bulk_elem_pt ipt) = true /\
    forall (power : spec_float)
           (outfile : @PowerMonitorElement.ofstream (binary64 libm_atan2)),
      (2 <= bulk_dim bulk_elem_pt)%nat ->
      b64_is_finite (SFmul 53 1024 M_PI (power_x el ipt 0)) = true ->
      b64_is_finite (power_W el ipt) = true ->
      exists power',
        fst (PowerMonitorElement.integration_point el bulk_elem_pt ipt power
               outfile)
        = Normal power' /\
        same_number power power'.
Proof.
  intros libm_atan2 el bulk_elem_pt ipt Hphi Hdn Hre Hdre.
  assert (Hzero : b64_is_zero (integrand_at el bulk_elem_pt ipt) = true).
  { unfold integrand_at.
    apply (real_field_binary64 libm_atan2); assumption. }
  split; [exact Hzero|].
  intros power outfile Hdim Hx HW.
  rewrite integration_point_run by assumption.
  eexists; split; [reflexivity|].
  cbv [dadd dmul Pi binary64].
  apply b64_plus_zero.
  apply b64_zero_times_finite; [|exact HW].
  apply b64_finite_times_zero; assumption.
Qed.

Lemma real_field_has_zero_integrand_witness :
  b64_is_zero
    (integrand_at real_field_scenario_b64 real_field_ELEMENT_b64 0)
  = true /\
  exists power',
    fst (@PowerMonitorElement.integration_point (binary64 no_atan2)
           real_field_scenario_b64 real_field_ELEMENT_b64 0 (b64 3)
           PowerMonitorElement.dummy_outfile)
    = Normal power' /\
    same_number (b64 3) power'.
Proof.
  destruct (real_field_has_zero_integrand no_atan2 real_field_scenario_b64
              real_field_ELEMENT_b64 0%nat)
    as [Hzero Hpoint]; try (vm_compute; reflexivity).
  split; [exact Hzero|].
  apply (Hpoint (b64 3) PowerMonitorElement.dummy_outfile);
    [apply le_n | vm_compute; reflexivity | vm_compute; reflexivity].
Defined.

(** Without the condition on the real parts the statement of C9 fails on
    binary64: with the finite nodal value [2^1023] and a shape function of
    value 2 the field overflows to [(inf, 0)], the normal derivative is
    [(0, 0)], and the integrand [inf * 0 - 0 * 0] is NaN, as is the power
    returned. *)
Lemma real_field_that_overflows_gives_nan :
  field_value overflow_scenario_b64 0
  = Complex (S754_infinity false) (S754_zero false) /\
  normal_derivative overflow_scenario_b64 overflow_ELEMENT_b64 0
  = Complex (S754_zero false) (S754_zero false) /\
  integrand_at overflow_scenario_b64 overflow_ELEMENT_b64 0 = S754_nan /\
  b64_is_zero (integrand_at overflow_scenario_b64 overflow_ELEMENT_b64 0)
  = false /\
  PowerMonitorElement.global_power_contribution_dummy overflow_scenario_b64
  = Normal S754_nan.
Proof.
  repeat split; vm_compute; reflexivity.
Qed.

(** * Further properties of the header *)

(** ** Shape and test functions *)

Section ShapeAndTest.

Context {D : DoubleOps}.
Local Open Scope double_scope.

(** The copy loop of [d_shape_and_test_local], entry by entry. *)
Lemma copy_with_derivatives (n : nat) (psi : Shape) (dpsi_ds : DShape)
    (copies : Shape * DShape) :
  let result :=
    for_pure n (fun i copies =>
      for_pure 1 (fun j copies =>
        (assign (fst copies) i (psi i),
         assign2 (snd copies) i j (dpsi_ds i j))) copies) copies in
  (forall l, fst result l = if Nat.ltb l n then psi l else fst copies l) /\
  (forall l j, snd result l j =
               if Nat.ltb l n && Nat.eqb j 0 then dpsi_ds l 0
               else snd copies l j).
Proof.
  induction n as [|n [IHt IHd]]; cbv zeta in *.
  - split; intros; reflexivity.
  - rewrite for_pure_S.
    match goal with
    | |- context [for_pure n ?body copies] =>
        set (before := for_pure n body copies) in *
    end.
    unfold for_pure; simpl fold_left; simpl fst; simpl snd.
    split.
    + intros l; unfold assign.
      destruct (Nat.eqb_spec l n) as [->|Hne].
      * destruct (Nat.ltb_spec n (S n)); [reflexivity | lia].
      * rewrite IHt.
        destruct (Nat.ltb_spec l n), (Nat.ltb_spec l (S n));
          try lia; reflexivity.
    + intros l j; unfold assign2.
      destruct (Nat.eqb_spec l n) as [->|Hne];
        destruct (Nat.eqb_spec j 0) as [->|Hj]; simpl.
      * destruct (Nat.ltb_spec n (S n)); [reflexivity | lia].
      * rewrite IHd.
        destruct (Nat.ltb n n), (Nat.ltb n (S n)); simpl;
          destruct (Nat.eqb_spec j 0); try lia; reflexivity.
      * rewrite IHd.
        destruct (Nat.ltb_spec l n), (Nat.ltb_spec l (S n));
          try lia; reflexivity.
      * rewrite IHd.
        destruct (Nat.ltb l n), (Nat.ltb l (S n)); simpl;
          destruct (Nat.eqb_spec j 0); try lia; reflexivity.
Qed.

End ShapeAndTest.

(** X1. In the flux element, [shape_and_test] and [shape_and_test_at_knot]
    hand back the shape functions of the base class, test functions that
    equal them at every node, and the Jacobian of the base class; and when
    the values stored for integration point [ipt] are those of its knot,
    [shape_and_test_at_knot] on [ipt] is [shape_and_test] on that knot. *)
Theorem flux_test_functions_are_shape_functions :
  forall (D : DoubleOps) (el : FluxElement.t) (s : Vector double)
         (shape_at_knot : nat -> Shape) (J_eulerian_at_knot : nat -> double)
         (ipt : nat) (psi test : Shape),
    (fst (fst (FluxElement.shape_and_test el s psi test))
     = shape (face (FluxElement.base el)) s /\
     snd (FluxElement.shape_and_test el s psi test)
     = J_eulerian (face (FluxElement.base el)) s /\
     forall l, (l < nnode (face (FluxElement.base el)))%nat ->
       snd (fst (FluxElement.shape_and_test el s psi test)) l
       = shape (face (FluxElement.base el)) s l) /\
    (fst (fst (shape_and_test_at_knot el shape_at_knot J_eulerian_at_knot
                 ipt psi test))
     = shape_at_knot ipt /\
     snd (shape_and_test_at_knot el shape_at_knot J_eulerian_at_knot
            ipt psi test)
     = J_eulerian_at_knot ipt /\
     forall l, (l < nnode (face (FluxElement.base el)))%nat ->
       snd (fst (shape_and_test_at_knot el shape_at_knot J_eulerian_at_knot
                   ipt psi test)) l
       = shape_at_knot ipt l) /\
    (shape_at_knot ipt = shape (face (FluxElement.base el)) (flux_s el ipt) ->
     J_eulerian_at_knot ipt
     = J_eulerian (face (FluxElement.base el)) (flux_s el ipt) ->
     shape_and_test_at_knot el shape_at_knot J_eulerian_at_knot ipt psi test
     = FluxElement.shape_and_test el (flux_s el ipt) psi test).
Proof.
  intros D el s shape_at_knot J_eulerian_at_knot ipt psi test.
  unfold FluxElement.shape_and_test, shape_and_test_at_knot; simpl.
  repeat split; try (intros l Hl; apply test_is_shape; assumption).
  intros Hshape HJ; rewrite Hshape, HJ; reflexivity.
Qed.

Lemma flux_test_functions_are_shape_functions_witness :
  @shape_and_test_at_knot reals flux_scenario_R
    (fun _ _ => 1%R) (fun _ => 1%R) 0 (fun _ => 0%R) (fun _ => 0%R)
  = @FluxElement.shape_and_test reals flux_scenario_R
      (flux_s flux_scenario_R 0) (fun _ => 0%R) (fun _ => 0%R).
Proof.
  exact (proj2 (proj2 (flux_test_functions_are_shape_functions reals
           flux_scenario_R [] (fun _ _ => 1%R) (fun _ => 1%R) 0%nat
           (fun _ => 0%R) (fun _ => 0%R))) eq_refl eq_refl).
Defined.

(** X2. In the power monitor, [shape_and_test] hands back the shape
    functions of the base class as test functions and shape functions that
    equal them at every node; [d_shape_and_test_local] hands back what
    [dshape_local] computed, test functions equal to the shape functions at
    every node, and test derivatives that equal the shape derivatives at
    every node in local direction 0 only: any other direction of
    [dtest_ds] is left as it was passed in. *)
Theorem power_test_functions_are_shape_functions :
  forall (D : DoubleOps) (el : PowerMonitorElement.t)
         (dshape_local : Vector double -> Shape * DShape)
         (s : Vector double) (psi test : Shape) (dpsi_ds dtest_ds : DShape),
    (snd (fst (power_shape_and_test el s psi test))
     = shape (face (PowerMonitorElement.base el)) s /\
     snd (power_shape_and_test el s psi test)
     = J_eulerian (face (PowerMonitorElement.base el)) s /\
     forall l, (l < nnode (face (PowerMonitorElement.base el)))%nat ->
       fst (fst (power_shape_and_test el s psi test)) l
       = shape (face (PowerMonitorElement.base el)) s l) /\
    (let '(psi', test', dpsi_ds', dtest_ds', J) :=
       d_shape_and_test_local el dshape_local s psi test dpsi_ds dtest_ds in
     psi' = fst (dshape_local s) /\
     dpsi_ds' = snd (dshape_local s) /\
     J = J_eulerian (face (PowerMonitorElement.base el)) s /\
     (forall l, (l < nnode (face (PowerMonitorElement.base el)))%nat ->
        test' l = psi' l /\ dtest_ds' l 0%nat = dpsi_ds' l 0%nat) /\
     (forall l j, j <> 0%nat -> dtest_ds' l j = dtest_ds l j)).
Proof.
  intros D el dshape_local s psi test dpsi_ds dtest_ds; split.
  - unfold power_shape_and_test; simpl; repeat split.
    intros l Hl; apply test_is_shape; assumption.
  - unfold d_shape_and_test_local.
    destruct (dshape_local s) as [psi' dpsi_ds']; simpl fst; simpl snd.
    destruct (copy_with_derivatives
                (nnode (face (PowerMonitorElement.base el))) psi' dpsi_ds'
                (test, dtest_ds)) as [Htest Hdtest]; cbv zeta in *.
    match goal with
    | |- context [for_pure ?n ?body (test, dtest_ds)] =>
        remember (for_pure n body (test, dtest_ds)) as result eqn:Eresult
    end.
    destruct result as [test' dtest_ds'].
    simpl in *; repeat split.
    + rewrite Htest.
      destruct (Nat.ltb_spec l (nnode (face (PowerMonitorElement.base el))));
        [reflexivity | lia].
    + rewrite Hdtest.
      destruct (Nat.ltb_spec l (nnode (face (PowerMonitorElement.base el))));
        [reflexivity | lia].
    + intros l j Hj; rewrite Hdtest.
      destruct (Nat.eqb_spec j 0); [contradiction|].
      rewrite andb_false_r; reflexivity.
Qed.

Lemma power_test_functions_are_shape_functions_witness :
  fst (fst (@power_shape_and_test reals power_scenario_R []
              (fun _ => 0%R) (fun _ => 0%R))) 0%nat
  = 1%R.
Proof.
  exact (proj2 (proj2 (proj1 (power_test_functions_are_shape_functions reals
           power_scenario_R (fun _ => (fun _ => 0%R, fun _ _ => 0%R)) []
           (fun _ => 0%R) (fun _ => 0%R) (fun _ _ => 0%R) (fun _ _ => 0%R))))
           0%nat (le_n 1)).
Defined.

(** ** The interpolation loops *)

Section Interpolation.

Context {D : DoubleOps}.
Local Open Scope double_scope.

(** A loop that adds [v l * w l] to a complex number, part by part. *)
Lemma complex_sum_loop (n : nat) (v : nat -> complex double)
    (w : nat -> double) (a b : double) :
  for_pure n (fun l z => complex_add z (complex_times (v l) (w l)))
           (Complex a b)
  = Complex
      (fold_left (fun acc l => acc + real (v l) * w l) (seq 0 n) a)
      (fold_left (fun acc l => acc + imag (v l) * w l) (seq 0 n) b).
Proof.
  induction n as [|n IH]; [reflexivity|].
  rewrite for_pure_S, IH, seq_S, !fold_left_app; reflexivity.
Qed.

(** One pass over the directions adds to each direction below the bound
    its own term and leaves the others alone. *)
Lemma direction_loop (dim : nat) (term g : nat -> complex double) (j : nat) :
  for_pure dim (fun i g => assign g i (complex_add (g i) (term i))) g j
  = if Nat.ltb j dim then complex_add (g j) (term j) else g j.
Proof.
  induction dim as [|dim IH]; [reflexivity|].
  rewrite for_pure_S; unfold assign at 1.
  destruct (Nat.eqb_spec j dim) as [->|Hne].
  - destruct (Nat.ltb_spec dim (S dim)); [|lia].
    replace (for_pure dim _ g dim) with (g dim); [reflexivity|].
    symmetry; etransitivity; [apply IH|].
    destruct (Nat.ltb_spec dim dim); [lia | reflexivity].
  - rewrite IH.
    destruct (Nat.ltb_spec j dim), (Nat.ltb_spec j (S dim)); try lia;
      reflexivity.
Qed.

Lemma calculate_dphidx_sum (bulk_elem_pt : ELEMENT) (dpsi_bulk_dx : DShape)
    (n i : nat) :
  for_pure n (fun l interpolated_dphidx =>
    let phi_value :=
      Complex
        (bulk_nodal_value bulk_elem_pt l (real (bulk_u_index bulk_elem_pt)))
        (bulk_nodal_value bulk_elem_pt l (imag (bulk_u_index bulk_elem_pt))) in
    for_pure (bulk_dim bulk_elem_pt) (fun i interpolated_dphidx =>
      assign interpolated_dphidx i
        (complex_add (interpolated_dphidx i)
                     (complex_times phi_value (dpsi_bulk_dx l i))))
      interpolated_dphidx)
    (fun _ => Complex dzero dzero) i
  = if Nat.ltb i (bulk_dim bulk_elem_pt)
    then Complex
           (fold_left
              (fun acc l =>
                 acc + bulk_nodal_value bulk_elem_pt l
                         (real (bulk_u_index bulk_elem_pt))
                       * dpsi_bulk_dx l i) (seq 0 n) dzero)
           (fold_left
              (fun acc l =>
                 acc + bulk_nodal_value bulk_elem_pt l
                         (imag (bulk_u_index bulk_elem_pt))
                       * dpsi_bulk_dx l i) (seq 0 n) dzero)
    else Complex dzero dzero.
Proof.
  induction n as [|n IH].
  - simpl; destruct (Nat.ltb i (bulk_dim bulk_elem_pt)); reflexivity.
  - rewrite for_pure_S.
    match goal with
    | |- context [for_pure n ?body ?init] =>
        remember (for_pure n body init) as before eqn:Ebefore
    end.
    cbv beta zeta.
    rewrite (direction_loop (bulk_dim bulk_elem_pt)
               (fun i => complex_times _ (dpsi_bulk_dx n i))).
    rewrite IH.
    destruct (Nat.ltb i (bulk_dim bulk_elem_pt)); [|reflexivity].
    rewrite seq_S, !fold_left_app; reflexivity.
Qed.

Lemma calculate_coordinates_sum (pos : nat -> nat -> double) (psif : Shape)
    (n : nat) :
  for_pure n (fun l x =>
    for_pure 2 (fun i x =>
      update x i (nth i x dzero + pos l i * psif l)) x)
    [dzero; dzero]
  = [fold_left (fun acc l => acc + pos l 0%nat * psif l) (seq 0 n) dzero;
     fold_left (fun acc l => acc + pos l 1%nat * psif l) (seq 0 n) dzero].
Proof.
  induction n as [|n IH]; [reflexivity|].
  rewrite for_pure_S, IH, seq_S, !fold_left_app; reflexivity.
Qed.

End Interpolation.

(** X3. The position at which the flux element evaluates the flux always
    has two coordinates, each the sum over the nodes, in order and started
    from zero, of nodal position times shape function: the in-place
    updates of the nested loops never mix the coordinates.  The radial
    coordinate used in the residual is the first of them. *)
Theorem flux_position_is_interpolated :
  forall (D : DoubleOps) (el : FluxElement.t) (psif : Shape) (ipt : nat),
    FluxElement.calculate_coordinates el psif
    = [fold_left
         (fun acc l =>
            acc + nodal_position (face (FluxElement.base el)) l 0 * psif l)%D
         (seq 0 (nnode (face (FluxElement.base el)))) dzero;
       fold_left
         (fun acc l =>
            acc + nodal_position (face (FluxElement.base el)) l 1 * psif l)%D
         (seq 0 (nnode (face (FluxElement.base el)))) dzero] /\
    flux_r el ipt
    = fold_left
        (fun acc l =>
           acc + nodal_position (face (FluxElement.base el)) l 0
                 * flux_test el ipt l)%D
        (seq 0 (nnode (face (FluxElement.base el)))) dzero.
Proof.
  intros D el psif ipt; split.
  - apply calculate_coordinates_sum.
  - unfold flux_r, flux_position, FluxElement.calculate_coordinates.
    rewrite calculate_coordinates_sum; reflexivity.
Qed.

(** X4. In the power monitor the field is the sum over the nodes of the
    face of nodal value times shape function, real and imaginary part
    apart; direction [i] of the gradient is, below the dimension of the
    bulk element, the sum over the nodes of the bulk element of nodal value
    times the derivative of the shape function in direction [i], and zero
    from the dimension on; and the normal derivative is the sum over the
    directions of gradient times normal.  All sums run in order from
    zero. *)
Theorem power_field_is_interpolated :
  forall (D : DoubleOps) (el : PowerMonitorElement.t) (bulk_elem_pt : ELEMENT)
         (psi : Shape) (dpsi_bulk_dx : DShape)
         (interpolated_dphidx : nat -> complex double)
         (unit_normal : nat -> double) (i : nat),
    PowerMonitorElement.calculate_phi el psi
    = Complex
        (fold_left
           (fun acc l =>
              acc + nodal_value (face (PowerMonitorElement.base el)) l
                      (real (PowerMonitorElement.U_index_pml_fourier_decomposed_helmholtz el))
                    * psi l)%D
           (seq 0 (nnode (face (PowerMonitorElement.base el)))) dzero)
        (fold_left
           (fun acc l =>
              acc + nodal_value (face (PowerMonitorElement.base el)) l
                      (imag (PowerMonitorElement.U_index_pml_fourier_decomposed_helmholtz el))
                    * psi l)%D
           (seq 0 (nnode (face (PowerMonitorElement.base el)))) dzero) /\
    PowerMonitorElement.calculate_dphidx bulk_elem_pt dpsi_bulk_dx i
    = (if Nat.ltb i (bulk_dim bulk_elem_pt)
       then Complex
              (fold_left
                 (fun acc l =>
                    acc + bulk_nodal_value bulk_elem_pt l
                            (real (bulk_u_index bulk_elem_pt))
                          * dpsi_bulk_dx l i)%D
                 (seq 0 (bulk_nnode bulk_elem_pt)) dzero)
              (fold_left
                 (fun acc l =>
                    acc + bulk_nodal_value bulk_elem_pt l
                            (imag (bulk_u_index bulk_elem_pt))
                          * dpsi_bulk_dx l i)%D
                 (seq 0 (bulk_nnode bulk_elem_pt)) dzero)
       else Complex dzero dzero) /\
    PowerMonitorElement.define_dphi_dn bulk_elem_pt interpolated_dphidx
      unit_normal
    = Complex
        (fold_left
           (fun acc i => acc + real (interpolated_dphidx i) * unit_normal i)%D
           (seq 0 (bulk_dim bulk_elem_pt)) dzero)
        (fold_left
           (fun acc i => acc + imag (interpolated_dphidx i) * unit_normal i)%D
           (seq 0 (bulk_dim bulk_elem_pt)) dzero).
Proof.
  intros D el bulk_elem_pt psi dpsi_bulk_dx interpolated_dphidx unit_normal i.
  split; [|split].
  - unfold PowerMonitorElement.calculate_phi; cbv zeta.
    rewrite (complex_sum_loop _
               (fun l => Complex
                  (nodal_value (face (PowerMonitorElement.base el)) l
                     (real (PowerMonitorElement.u_index el)))
                  (nodal_value (face (PowerMonitorElement.base el)) l
                     (imag (PowerMonitorElement.u_index el))))).
    reflexivity.
  - apply calculate_dphidx_sum.
  - unfold PowerMonitorElement.define_dphi_dn.
    apply complex_sum_loop.
Qed.

(** ** More on the residual of the flux element *)

Section FluxMore.

Context {D : DoubleOps}.
Local Open Scope double_scope.

Import FluxElement.

Lemma foreach_ext {S X} (idx : list nat) (body body' : nat -> X -> M S X) :
  (forall i x s, In i idx -> body i x s = body' i x s) ->
  forall x s, foreach idx body x s = foreach idx body' x s.
Proof.
  induction idx as [|i rest IH]; intros H x s; simpl; [reflexivity|].
  unfold bind; rewrite (H i x s) by (left; reflexivity).
  destruct (body' i x s) as [[x'|f] s']; [|reflexivity].
  apply IH; intros; apply H; right; assumption.
Qed.

Lemma generic_keeps_length (el : t) (flag : nat) :
  keeps (fun b => length (residuals b))
    (fill_in_generic_residual_contribution_pml_fourier_decomposed_helmholtz_flux
       el flag).
Proof.
  apply (generic_by_steps
           (fun A m => keeps (fun b => length (residuals b)) m)).
  - intros; apply keeps_ret.
  - intros; apply keeps_bind; assumption.
  - intros ipt l testf _ _; unfold add_flux_terms.
    assert (Hsub : forall local_eqn term,
              keeps (fun b => length (residuals b))
                    (residuals_sub local_eqn term)).
    { intros local_eqn term b; unfold residuals_sub.
      destruct (nth_error (residuals b) (Z.to_nat local_eqn));
        [simpl; apply update_length | reflexivity]. }
    apply keeps_bind; [|intros _];
      match goal with |- keeps _ (if ?c then _ else _) => destruct c end;
      auto using keeps_ret.
Qed.

(** With the same face and the same flux at the positions of the
    integration points, one integration point does the same. *)
Lemma integration_point_same_flux (el el' : t) (ipt : nat)
    (shapes : Shape * Shape) (b : Buffers) :
  same_face el el' ->
  flux_value el' ipt = flux_value el ipt ->
  integration_point el' ipt shapes b = integration_point el ipt shapes b.
Proof.
  destruct el as [base_el U fct], el' as [base_el' U' fct'].
  unfold same_face; simpl; intros [-> ->] Hflux.
  unfold flux_value, flux_position, flux_s, get_flux,
    calculate_coordinates in Hflux; simpl in Hflux.
  unfold integration_point, shape_and_test, get_flux, calculate_coordinates,
    add_flux_terms; simpl.
  rewrite Hflux; reflexivity.
Qed.

End FluxMore.

(** X5. Whatever the element and the buffers, and whether the generic
    routine returns or stops, the residual vector keeps its length: entries
    are only ever overwritten in place. *)
Theorem residual_vector_keeps_its_length :
  forall (D : DoubleOps) (el : FluxElement.t) (flag : nat)
         (b : FluxElement.Buffers) (res : Vector double),
    length
      (FluxElement.residuals
         (snd (FluxElement.fill_in_generic_residual_contribution_pml_fourier_decomposed_helmholtz_flux
                 el flag b)))
    = length (FluxElement.residuals b) /\
    length (snd (FluxElement.fill_in_contribution_to_residuals el res))
    = length res.
Proof.
  intros D el flag b res; split.
  - apply (generic_keeps_length el flag b).
  - unfold FluxElement.fill_in_contribution_to_residuals.
    assert (H := generic_keeps_length el 0
                   {| FluxElement.residuals := res;
                      FluxElement.jacobian := Dummy_matrix |}).
    simpl in H.
    destruct (FluxElement.fill_in_generic_residual_contribution_pml_fourier_decomposed_helmholtz_flux
                el 0 _) as [out b'].
    exact H.
Qed.

(** X6. An integration scheme without points, or a face without nodes,
    makes the generic routine return normally with the buffers as it found
    them, whatever the equation numbers and the flux function are. *)
Theorem no_points_or_no_nodes_no_contribution :
  forall (D : DoubleOps) (el : FluxElement.t) (flag : nat)
         (b : FluxElement.Buffers),
    nweight (integral_pt (face (FluxElement.base el))) = 0%nat \/
    nnode (face (FluxElement.base el)) = 0%nat ->
    FluxElement.fill_in_generic_residual_contribution_pml_fourier_decomposed_helmholtz_flux
      el flag b = (Normal tt, b).
Proof.
  intros D el flag b [Hpoints|Hnodes].
  - unfold FluxElement.fill_in_generic_residual_contribution_pml_fourier_decomposed_helmholtz_flux,
      for_.
    rewrite Hpoints; reflexivity.
  - apply generic_all_pinned.
    intros l Hl; rewrite Hnodes in Hl; lia.
Qed.

(** X7. The flux function is consulted only at the positions of the
    integration points: two flux elements on the same face, with the same
    pair of indices, whose imposed fluxes agree at every integration point
    do the same to the same buffers, in outcome and in content. *)
Theorem flux_matters_at_integration_points_only :
  forall (D : DoubleOps) (el el' : FluxElement.t) (flag : nat)
         (b : FluxElement.Buffers),
    same_face el el' ->
    (forall ipt,
       (ipt < nweight (integral_pt (face (FluxElement.base el))))%nat ->
       flux_value el' ipt = flux_value el ipt) ->
    FluxElement.fill_in_generic_residual_contribution_pml_fourier_decomposed_helmholtz_flux
      el' flag b
    = FluxElement.fill_in_generic_residual_contribution_pml_fourier_decomposed_helmholtz_flux
        el flag b.
Proof.
  intros D el el' flag b Hface Hflux.
  unfold FluxElement.fill_in_generic_residual_contribution_pml_fourier_decomposed_helmholtz_flux,
    for_, bind.
  destruct Hface as [Hbase HU]; rewrite Hbase.
  rewrite (foreach_ext _ (FluxElement.integration_point el')
             (FluxElement.integration_point el)); [reflexivity|].
  intros ipt shapes s Hin; apply in_seq in Hin.
  apply integration_point_same_flux; [split; assumption|].
  apply Hflux; lia.
Qed.

Lemma no_points_or_no_nodes_no_contribution_witness :
  @FluxElement.fill_in_generic_residual_contribution_pml_fourier_decomposed_helmholtz_flux
    reals (flux_without_points flux_scenario_R) 0
    (@FluxElement.Build_Buffers reals [5%R; 7%R] (@Dummy_matrix reals))
  = (Normal tt,
     @FluxElement.Build_Buffers reals [5%R; 7%R] (@Dummy_matrix reals)).
Proof.
  exact (no_points_or_no_nodes_no_contribution reals
           (flux_without_points flux_scenario_R) 0%nat
           (@FluxElement.Build_Buffers reals [5%R; 7%R] (@Dummy_matrix reals))
           (or_introl eq_refl)).
Defined.

Lemma flux_matters_at_integration_points_only_witness :
  same_face flux_scenario_R
    (FluxElement.set_flux_fct_pt flux_scenario_R
       (Some (@flux_on_the_plane reals (Complex 3%R (-4)%R)))) /\
  @FluxElement.fill_in_generic_residual_contribution_pml_fourier_decomposed_helmholtz_flux
    reals
    (FluxElement.set_flux_fct_pt flux_scenario_R
       (Some (@flux_on_the_plane reals (Complex 3%R (-4)%R)))) 0
    (@FluxElement.Build_Buffers reals [5%R; 7%R] (@Dummy_matrix reals))
  = @FluxElement.fill_in_generic_residual_contribution_pml_fourier_decomposed_helmholtz_flux
      reals flux_scenario_R 0
      (@FluxElement.Build_Buffers reals [5%R; 7%R] (@Dummy_matrix reals)).
Proof.
  assert (Hface : same_face flux_scenario_R
            (FluxElement.set_flux_fct_pt flux_scenario_R
               (Some (@flux_on_the_plane reals (Complex 3%R (-4)%R))))).
  { split; reflexivity. }
  split; [exact Hface|].
  apply (flux_matters_at_integration_points_only reals flux_scenario_R
           (FluxElement.set_flux_fct_pt flux_scenario_R
              (Some (@flux_on_the_plane reals (Complex 3%R (-4)%R))))
           0%nat
           (@FluxElement.Build_Buffers reals [5%R; 7%R] (@Dummy_matrix reals))
           Hface).
  intros ipt _; reflexivity.
Defined.

(** ** More on the power monitor *)

Section PowerMore.

Context {D : DoubleOps}.
Local Open Scope double_scope.

Import PowerMonitorElement.

Lemma extends_refl (outfile : ofstream) : extends outfile outfile.
Proof.
  split; [reflexivity|]; exists []; rewrite app_nil_r; reflexivity.
Qed.

Lemma extends_trans (o1 o2 o3 : ofstream) :
  extends o1 o2 -> extends o2 o3 -> extends o1 o3.
Proof.
  intros [Hopen12 [m12 Hw12]] [Hopen23 [m23 Hw23]]; split; [congruence|].
  exists (m12 ++ m23); rewrite Hw23, Hw12, app_assoc; reflexivity.
Qed.

Lemma extends_bind {A B} (m : M ofstream A) (k : A -> M ofstream B) :
  moves_within extends m -> (forall a, moves_within extends (k a)) ->
  moves_within extends (bind m k).
Proof.
  intros Hm Hk outfile; unfold bind.
  specialize (Hm outfile); destruct (m outfile) as [[a|f] outfile'];
    simpl in *; [|assumption].
  eapply extends_trans; [eassumption | apply Hk].
Qed.

Lemma extends_foreach {X} (idx : list nat) (body : nat -> X -> M ofstream X) :
  (forall i x, moves_within extends (body i x)) ->
  forall x, moves_within extends (foreach idx body x).
Proof.
  intros H; induction idx as [|i rest IH]; intros x; simpl.
  - intros outfile; apply extends_refl.
  - apply extends_bind; auto.
Qed.

Lemma extends_put (item : Item) : moves_within extends (put item).
Proof.
  intros outfile; unfold put; simpl.
  destruct (is_open outfile) eqn:Hopen; [|apply extends_refl].
  split; [simpl; congruence|]; exists [item]; reflexivity.
Qed.

Lemma extends_integration_point (el : t) (bulk_elem_pt : ELEMENT) (ipt : nat)
    (power : double) :
  moves_within extends (integration_point el bulk_elem_pt ipt power).
Proof.
  assert (Hret : forall A (a : A), moves_within extends (@ret ofstream A a))
    by (intros A a outfile; apply extends_refl).
  assert (Hindex : forall size x i,
            moves_within extends (@index D ofstream size x i)).
  { intros size x i outfile; unfold index.
    destruct (Nat.ltb i size); apply extends_refl. }
  unfold integration_point.
  destruct (bulk_dshape_eulerian bulk_elem_pt _) as [psi_bulk dpsi_bulk_dx].
  apply extends_bind; [apply Hindex | intros x0].
  apply extends_bind; [apply Hindex | intros x1].
  apply extends_bind; [intros outfile; apply extends_refl | intros open].
  apply extends_bind; [|intros _; apply Hret].
  destruct open; [|apply Hret].
  repeat (apply extends_bind; [apply extends_put | intros _]).
  apply extends_put.
Qed.

(** The value that a loop returns when its body returns the same value on
    any two states. *)
Lemma foreach_value {S X} (idx : list nat) (body : nat -> X -> M S X) :
  (forall i x s s', fst (body i x s) = fst (body i x s')) ->
  forall x s s', fst (foreach idx body x s) = fst (foreach idx body x s').
Proof.
  intros H; induction idx as [|i rest IH]; intros x s s'; simpl;
    [reflexivity|].
  unfold bind; specialize (H i x s s').
  destruct (body i x s) as [[a|f] u], (body i x s') as [[a'|f'] u'];
    simpl in H; try discriminate.
  - injection H as ->; apply IH.
  - injection H as ->; reflexivity.
Qed.

Lemma integration_point_value (el : t) (bulk_elem_pt : ELEMENT) (ipt : nat)
    (power : double) (outfile outfile' : ofstream) :
  fst (integration_point el bulk_elem_pt ipt power outfile)
  = fst (integration_point el bulk_elem_pt ipt power outfile').
Proof.
  unfold integration_point.
  destruct (bulk_dshape_eulerian bulk_elem_pt _) as [psi_bulk dpsi_bulk_dx].
  unfold index, bind, outfile_is_open, put, ret, fail.
  destruct (Nat.ltb 0 (bulk_dim bulk_elem_pt)); [|reflexivity].
  destruct (Nat.ltb 1 (bulk_dim bulk_elem_pt)); [|reflexivity].
  destruct (is_open outfile), (is_open outfile'); reflexivity.
Qed.

End PowerMore.

(** X8. On a face with at least one node, whose first node has at least
    one coordinate, with an integration scheme without points and a bulk
    element of the expected type, [global_power_contribution] returns zero,
    whatever the dimension of the bulk element; an open file receives the
    group marker, the four letters ZONE and a line feed, and nothing
    else. *)
Theorem no_points_no_power :
  forall (D : DoubleOps) (el : PowerMonitorElement.t) (bulk_elem_pt : ELEMENT)
         (outfile : PowerMonitorElement.ofstream),
    cast_to_ELEMENT (bulk_element_pt (PowerMonitorElement.base el))
    = Some bulk_elem_pt ->
    (1 <= nnode (face (PowerMonitorElement.base el)))%nat ->
    (1 <= node_pt_ndim (face (PowerMonitorElement.base el)) 0)%nat ->
    nweight (integral_pt (face (PowerMonitorElement.base el))) = 0%nat ->
    PowerMonitorElement.global_power_contribution el outfile
    = (Normal dzero,
       PowerMonitorElement.after_records outfile
         [PowerMonitorElement.Text zone_line]) /\
    zone_line = String "Z" (String "O" (String "N" (String "E"
                  (String (ascii_of_nat 10) EmptyString)))).
Proof.
  intros D el bulk_elem_pt outfile Hcast _ _ Hpoints.
  split; [|reflexivity].
  unfold PowerMonitorElement.global_power_contribution, for_.
  rewrite Hcast, Hpoints.
  unfold bind, PowerMonitorElement.outfile_is_open,
    PowerMonitorElement.put, PowerMonitorElement.after_records; simpl.
  destruct (PowerMonitorElement.is_open outfile) eqn:Hopen; simpl;
    rewrite ?Hopen; reflexivity.
Qed.

Lemma no_points_no_power_witness :
  @PowerMonitorElement.global_power_contribution reals
    (power_without_points power_scenario_R)
    (@PowerMonitorElement.Build_ofstream reals true [])
  = (Normal 0%R,
     @PowerMonitorElement.Build_ofstream reals true
       [PowerMonitorElement.Text zone_line]).
Proof.
  exact (proj1 (no_points_no_power reals
           (power_without_points power_scenario_R)
           (@scenario_ELEMENT reals 1%R 2%R)
           (@PowerMonitorElement.Build_ofstream reals true [])
           eq_refl (le_n 1) (le_S 1 1 (le_n 1)) eq_refl)).
Defined.

(** X9. On a bulk element of the expected type with at least two
    directions, an open output file holds after the call what it held
    before, then the group marker (ZONE and a line feed), then for every
    integration point in order the eight items of its record: x0, a blank,
    x1, a blank, [atan2(x0, x1)], a blank, the integrand and a line feed;
    that is [1 + 8 * n_intpt] items more. *)
Theorem diagnostic_records_in_order :
  forall (D : DoubleOps) (el : PowerMonitorElement.t) (bulk_elem_pt : ELEMENT)
         (outfile : PowerMonitorElement.ofstream),
    cast_to_ELEMENT (bulk_element_pt (PowerMonitorElement.base el))
    = Some bulk_elem_pt ->
    (2 <= bulk_dim bulk_elem_pt)%nat ->
    PowerMonitorElement.is_open outfile = true ->
    snd (PowerMonitorElement.global_power_contribution el outfile)
    = {| PowerMonitorElement.is_open := true;
         PowerMonitorElement.written :=
           PowerMonitorElement.written outfile
           ++ PowerMonitorElement.Text zone_line
              :: concat
                   (map (power_record el bulk_elem_pt)
                      (seq 0 (nweight (integral_pt
                                (face (PowerMonitorElement.base el)))))) |} /\
    length
      (PowerMonitorElement.written
         (snd (PowerMonitorElement.global_power_contribution el outfile)))
    = (length (PowerMonitorElement.written outfile) + 1
       + 8 * nweight (integral_pt (face (PowerMonitorElement.base el))))%nat /\
    (forall ipt,
       power_record el bulk_elem_pt ipt
       = [PowerMonitorElement.Number (power_x el ipt 0);
          PowerMonitorElement.Text " ";
          PowerMonitorElement.Number (power_x el ipt 1);
          PowerMonitorElement.Text " ";
          PowerMonitorElement.Number
            (atan2 (power_x el ipt 0) (power_x el ipt 1));
          PowerMonitorElement.Text " ";
          PowerMonitorElement.Number (integrand_at el bulk_elem_pt ipt);
          PowerMonitorElement.Text (String (ascii_of_nat 10) EmptyString)]) /\
    zone_line = String "Z" (String "O" (String "N" (String "E"
                  (String (ascii_of_nat 10) EmptyString)))).
Proof.
  intros D el bulk_elem_pt outfile Hcast Hdim Hopen.
  rewrite (global_power_contribution_run el bulk_elem_pt) by assumption.
  unfold PowerMonitorElement.after_records; rewrite Hopen; simpl.
  split; [reflexivity|].
  split; [|split; [intros ipt; reflexivity | reflexivity]].
  rewrite length_app; simpl.
  assert (Hrecords : forall points,
            length (concat (map (power_record el bulk_elem_pt) points))
            = (8 * length points)%nat).
  { induction points as [|ipt rest IH]; [reflexivity|].
    cbn [map concat power_record app length]; rewrite IH; lia. }
  rewrite Hrecords, length_seq; lia.
Qed.

Lemma diagnostic_records_in_order_witness :
  snd (@PowerMonitorElement.global_power_contribution reals power_scenario_R
         (@PowerMonitorElement.Build_ofstream reals true []))
  = @PowerMonitorElement.Build_ofstream reals true
      (PowerMonitorElement.Text zone_line
       :: power_record power_scenario_R (@scenario_ELEMENT reals 1%R 2%R) 0
          ++ []).
Proof.
  exact (proj1 (diagnostic_records_in_order reals power_scenario_R
           (@scenario_ELEMENT reals 1%R 2%R)
           (@PowerMonitorElement.Build_ofstream reals true [])
           eq_refl (le_n 2) eq_refl)).
Defined.

(** X10. Whatever the element and the output file, and whether the call
    returns or stops, the file is afterwards as open as it was and holds
    what it held with, at most, more at its end. *)
Theorem outfile_is_only_appended_to :
  forall (D : DoubleOps) (el : PowerMonitorElement.t)
         (outfile : PowerMonitorElement.ofstream),
    extends outfile
      (snd (PowerMonitorElement.global_power_contribution el outfile)).
Proof.
  intros D el outfile.
  unfold PowerMonitorElement.global_power_contribution.
  destruct (cast_to_ELEMENT (bulk_element_pt (PowerMonitorElement.base el)))
    as [bulk_elem_pt|]; [|apply extends_refl].
  revert outfile.
  apply extends_bind; [intros outfile; apply extends_refl | intros open].
  apply extends_bind.
  - destruct open; [apply extends_put | intros outfile; apply extends_refl].
  - intros _; apply extends_foreach; intros; apply extends_integration_point.
Qed.

(** X11. The value that [global_power_contribution] returns, or the failure
    with which it stops, does not depend on the output file: on any file,
    open or not, it is what the overload without a file gives. *)
Theorem power_does_not_depend_on_the_outfile :
  forall (D : DoubleOps) (el : PowerMonitorElement.t)
         (outfile : PowerMonitorElement.ofstream),
    fst (PowerMonitorElement.global_power_contribution el outfile)
    = PowerMonitorElement.global_power_contribution_dummy el.
Proof.
  intros D el outfile.
  unfold PowerMonitorElement.global_power_contribution_dummy,
    PowerMonitorElement.global_power_contribution.
  destruct (cast_to_ELEMENT (bulk_element_pt (PowerMonitorElement.base el)))
    as [bulk_elem_pt|]; [|reflexivity].
  unfold bind, PowerMonitorElement.outfile_is_open,
    PowerMonitorElement.put, for_; simpl.
  destruct (PowerMonitorElement.is_open outfile); simpl;
    apply foreach_value; intros; apply integration_point_value.
Qed.

(** ** IEEE binary64 *)



(** X18. On binary64 numbers the power density of a field value and a
    normal derivative with zero imaginary parts and finite real parts is a
    zero. *)
Theorem real_field_on_binary64 :
  forall (libm_atan2 : spec_float -> spec_float -> spec_float)
         (phi dphi_dn : complex spec_float),
    b64_is_zero (imag phi) = true ->
    b64_is_zero (imag dphi_dn) = true ->
    b64_is_finite (real phi) = true ->
    b64_is_finite (real dphi_dn) = true ->
    b64_is_zero
      (@PowerMonitorElement.power_density (binary64 libm_atan2) phi dphi_dn)
    = true.
Proof.
  intros libm_atan2 phi dphi_dn.
  exact (real_field_binary64 libm_atan2 phi dphi_dn).
Qed.

Lemma real_field_on_binary64_witness :
  b64_is_zero
    (@PowerMonitorElement.power_density (binary64 no_atan2)
       (Complex (b64 3) (S754_zero false))
       (Complex (b64 (-2)) (S754_zero true)))
  = true.
Proof.
  exact (real_field_on_binary64 no_atan2
           (Complex (b64 3) (S754_zero false))
           (Complex (b64 (-2)) (S754_zero true))
           eq_refl eq_refl eq_refl eq_refl).
Defined.

(** ** Independence of the solution *)

(** X19. The residual of the flux element does not depend on the solution:
    the generic routine does the same to the same buffers whatever the
    nodal values on the face are and whatever bulk element stands behind
    it.  This is why no Jacobian term is needed. *)
Theorem residual_is_independent_of_the_solution :
  forall (D : DoubleOps) (el : FluxElement.t) (values : nat -> nat -> double)
         (bulk : FiniteElement) (flag : nat) (b : FluxElement.Buffers),
    FluxElement.fill_in_generic_residual_contribution_pml_fourier_decomposed_helmholtz_flux
      (flux_with_solution el values bulk) flag b
    = FluxElement.fill_in_generic_residual_contribution_pml_fourier_decomposed_helmholtz_flux
        el flag b.
Proof.
  intros D el values bulk flag b.
  unfold FluxElement.fill_in_generic_residual_contribution_pml_fourier_decomposed_helmholtz_flux,
    for_, bind.
  rewrite (foreach_ext _
             (FluxElement.integration_point (flux_with_solution el values bulk))
             (FluxElement.integration_point el)); [reflexivity|].
  intros ipt shapes s _; reflexivity.
Qed.

(** ** Exact arithmetic: the conjugate field *)

Section Conjugation.

Local Open Scope R_scope.

Lemma fold_left_opp {A} (f f' : R -> A -> R) (l : list A) :
  (forall x a, In a l -> f' (- x) a = - f x a) ->
  forall x, fold_left f' l (- x) = - fold_left f l x.
Proof.
  induction l as [|a l IH]; intros H x; simpl; [reflexivity|].
  rewrite <- (IH (fun x b Hb => H x b (or_intror Hb)) (f x a)).
  rewrite (H x a (or_introl eq_refl)); reflexivity.
Qed.

(** A sum of products whose first factors are negated is negated. *)
Lemma sum_opp (v v' w : nat -> R) (l : list nat) :
  (forall i, In i l -> v' i = - v i) ->
  fold_left (fun acc i => @dadd reals acc (@dmul reals (v' i) (w i))) l 0
  = - fold_left (fun acc i => @dadd reals acc (@dmul reals (v i) (w i))) l 0.
Proof.
  intros Hv.
  rewrite <- (fold_left_opp
                (fun acc i => @dadd reals acc (@dmul reals (v i) (w i)))
                (fun acc i => @dadd reals acc (@dmul reals (v' i) (w i)))).
  - f_equal; ring.
  - intros x i Hi; rewrite (Hv i Hi); cbv [dadd dmul reals]; ring.
Qed.

Lemma sum_same (v v' w : nat -> R) (l : list nat) :
  (forall i, In i l -> v' i = v i) ->
  fold_left (fun acc i => @dadd reals acc (@dmul reals (v' i) (w i))) l 0
  = fold_left (fun acc i => @dadd reals acc (@dmul reals (v i) (w i))) l 0.
Proof.
  intros Hv; apply fold_left_ext_in; intros acc i Hi.
  rewrite (Hv i Hi); reflexivity.
Qed.

(** The conjugate values at the two indices of the unknown. *)
Lemma conjugate_values_real (values : nat -> nat -> R) (index : complex nat)
    (l : nat) :
  real index <> imag index ->
  @conjugate_values reals values index l (real index) = values l (real index).
Proof.
  intros Hdistinct; unfold conjugate_values.
  destruct (Nat.eqb_spec (real index) (imag index)); [contradiction|].
  reflexivity.
Qed.

Lemma conjugate_values_imag (values : nat -> nat -> R) (index : complex nat)
    (l : nat) :
  @conjugate_values reals values index l (imag index)
  = - values l (imag index).
Proof.
  unfold conjugate_values; rewrite Nat.eqb_refl.
  cbv [dsub dzero double reals]; ring.
Qed.

Lemma conjugate_field (el : @PowerMonitorElement.t reals) (psi : @Shape reals) :
  real (PowerMonitorElement.U_index_pml_fourier_decomposed_helmholtz el)
  <> imag (PowerMonitorElement.U_index_pml_fourier_decomposed_helmholtz el) ->
  PowerMonitorElement.calculate_phi (conjugate_power el) psi
  = Complex (real (PowerMonitorElement.calculate_phi el psi))
            (- imag (PowerMonitorElement.calculate_phi el psi)).
Proof.
  intros Hdistinct.
  unfold PowerMonitorElement.calculate_phi; cbv zeta.
  rewrite (@complex_sum_loop reals _
             (fun l => Complex
                (nodal_value (face (PowerMonitorElement.base (conjugate_power el))) l
                   (real (PowerMonitorElement.u_index (conjugate_power el))))
                (nodal_value (face (PowerMonitorElement.base (conjugate_power el))) l
                   (imag (PowerMonitorElement.u_index (conjugate_power el)))))).
  rewrite (@complex_sum_loop reals _
             (fun l => Complex
                (nodal_value (face (PowerMonitorElement.base el)) l
                   (real (PowerMonitorElement.u_index el)))
                (nodal_value (face (PowerMonitorElement.base el)) l
                   (imag (PowerMonitorElement.u_index el))))).
  cbn [real imag PowerMonitorElement.u_index conjugate_power
       PowerMonitorElement.base face with_nodal_values nodal_value nnode
       PowerMonitorElement.U_index_pml_fourier_decomposed_helmholtz].
  f_equal.
  - apply (sum_same
             (fun l => nodal_value (face (PowerMonitorElement.base el)) l
                         (real (PowerMonitorElement.U_index_pml_fourier_decomposed_helmholtz el)))).
    intros l _; apply conjugate_values_real; assumption.
  - apply (sum_opp
             (fun l => nodal_value (face (PowerMonitorElement.base el)) l
                         (imag (PowerMonitorElement.U_index_pml_fourier_decomposed_helmholtz el)))).
    intros l _; apply conjugate_values_imag.
Qed.

Lemma conjugate_gradient (bulk_elem_pt : @ELEMENT reals)
    (dpsi_bulk_dx : @DShape reals) (i : nat) :
  real (bulk_u_index bulk_elem_pt) <> imag (bulk_u_index bulk_elem_pt) ->
  PowerMonitorElement.calculate_dphidx (conjugate_ELEMENT bulk_elem_pt)
    dpsi_bulk_dx i
  = Complex
      (real (PowerMonitorElement.calculate_dphidx bulk_elem_pt dpsi_bulk_dx i))
      (- imag (PowerMonitorElement.calculate_dphidx bulk_elem_pt
                 dpsi_bulk_dx i)).
Proof.
  intros Hdistinct.
  unfold PowerMonitorElement.calculate_dphidx.
  rewrite !(@calculate_dphidx_sum reals).
  cbn [conjugate_ELEMENT bulk_dim bulk_nnode bulk_nodal_value bulk_u_index].
  destruct (Nat.ltb i (bulk_dim bulk_elem_pt)); cbn [real imag].
  - f_equal.
    + apply (sum_same
               (fun l => bulk_nodal_value bulk_elem_pt l
                           (real (bulk_u_index bulk_elem_pt)))
               _ (fun l => dpsi_bulk_dx l i)).
      intros l _; apply conjugate_values_real; assumption.
    + apply (sum_opp
               (fun l => bulk_nodal_value bulk_elem_pt l
                           (imag (bulk_u_index bulk_elem_pt)))
               _ (fun l => dpsi_bulk_dx l i)).
      intros l _; apply conjugate_values_imag.
  - f_equal; cbv [dzero double reals]; ring.
Qed.

Lemma conjugate_normal_derivative (bulk_elem_pt : @ELEMENT reals)
    (dpsi_bulk_dx : @DShape reals) (unit_normal : nat -> R) :
  real (bulk_u_index bulk_elem_pt) <> imag (bulk_u_index bulk_elem_pt) ->
  PowerMonitorElement.define_dphi_dn (conjugate_ELEMENT bulk_elem_pt)
    (PowerMonitorElement.calculate_dphidx (conjugate_ELEMENT bulk_elem_pt)
       dpsi_bulk_dx)
    unit_normal
  = Complex
      (real (PowerMonitorElement.define_dphi_dn bulk_elem_pt
               (PowerMonitorElement.calculate_dphidx bulk_elem_pt dpsi_bulk_dx)
               unit_normal))
      (- imag (PowerMonitorElement.define_dphi_dn bulk_elem_pt
                 (PowerMonitorElement.calculate_dphidx bulk_elem_pt
                    dpsi_bulk_dx)
                 unit_normal)).
Proof.
  intros Hdistinct.
  unfold PowerMonitorElement.define_dphi_dn.
  rewrite !(@complex_sum_loop reals).
  cbn [conjugate_ELEMENT bulk_dim real imag].
  f_equal.
  - apply (sum_same
             (fun i => real (PowerMonitorElement.calculate_dphidx bulk_elem_pt
                               dpsi_bulk_dx i))
             (fun i => real (PowerMonitorElement.calculate_dphidx
                               (conjugate_ELEMENT bulk_elem_pt)
                               dpsi_bulk_dx i))).
    intros i _; rewrite conjugate_gradient by assumption; reflexivity.
  - apply (sum_opp
             (fun i => imag (PowerMonitorElement.calculate_dphidx bulk_elem_pt
                               dpsi_bulk_dx i))
             (fun i => imag (PowerMonitorElement.calculate_dphidx
                               (conjugate_ELEMENT bulk_elem_pt)
                               dpsi_bulk_dx i))).
    intros i _; rewrite conjugate_gradient by assumption; reflexivity.
Qed.

Lemma conjugate_integrand (el : @PowerMonitorElement.t reals)
    (bulk_elem_pt : @ELEMENT reals) (ipt : nat) :
  real (PowerMonitorElement.U_index_pml_fourier_decomposed_helmholtz el)
  <> imag (PowerMonitorElement.U_index_pml_fourier_decomposed_helmholtz el) ->
  real (bulk_u_index bulk_elem_pt) <> imag (bulk_u_index bulk_elem_pt) ->
  integrand_at (conjugate_power el) (conjugate_ELEMENT bulk_elem_pt) ipt
  = - integrand_at el bulk_elem_pt ipt.
Proof.
  intros Hface Hbulk.
  unfold integrand_at, field_value, normal_derivative.
  change (power_s (conjugate_power el) ipt) with (power_s el ipt).
  cbn [conjugate_power PowerMonitorElement.base face with_nodal_values
       shape outer_unit_normal local_coordinate_in_bulk
       conjugate_ELEMENT bulk_dshape_eulerian].
  fold (conjugate_power el); fold (conjugate_ELEMENT bulk_elem_pt).
  rewrite conjugate_field by assumption.
  rewrite conjugate_normal_derivative by assumption.
  unfold PowerMonitorElement.power_density; cbn [real imag].
  cbv [dsub dmul double reals]; ring.
Qed.

End Conjugation.

(** X20. In exact arithmetic, replacing the nodal values by their complex
    conjugates, on the face and in the bulk element, reverses the sign of
    the radiated power: where the two indices of the unknown are distinct
    and the bulk element is of the expected type with at least two
    directions, both calls return normally, with opposite values. *)
Theorem conjugate_field_radiates_the_opposite :
  forall (el : @PowerMonitorElement.t reals) (bulk_elem_pt : @ELEMENT reals)
         (outfile : @PowerMonitorElement.ofstream reals),
    cast_to_ELEMENT (bulk_element_pt (PowerMonitorElement.base el))
    = Some bulk_elem_pt ->
    (2 <= bulk_dim bulk_elem_pt)%nat ->
    real (PowerMonitorElement.U_index_pml_fourier_decomposed_helmholtz el)
    <> imag (PowerMonitorElement.U_index_pml_fourier_decomposed_helmholtz el) ->
    real (bulk_u_index bulk_elem_pt) <> imag (bulk_u_index bulk_elem_pt) ->
    exists power : R,
      fst (PowerMonitorElement.global_power_contribution el outfile)
      = Normal power /\
      fst (PowerMonitorElement.global_power_contribution (conjugate_power el)
             outfile)
      = Normal (- power)%R.
Proof.
  intros el bulk_elem_pt outfile Hcast Hdim Hface Hbulk.
  exists (power_sum el bulk_elem_pt); split.
  - rewrite (global_power_contribution_run el bulk_elem_pt) by assumption.
    reflexivity.
  - rewrite (global_power_contribution_run (conjugate_power el)
               (conjugate_ELEMENT bulk_elem_pt)).
    + simpl fst; f_equal; unfold power_sum.
      change (nweight (integral_pt
                (face (PowerMonitorElement.base (conjugate_power el)))))
        with (nweight (integral_pt (face (PowerMonitorElement.base el)))).
      rewrite <- (fold_left_opp
                    (fun power ipt =>
                       @dadd reals power
                         (@dmul reals
                            (@dmul reals
                               (@dmul reals (@Pi reals) (power_x el ipt 0))
                               (integrand_at el bulk_elem_pt ipt))
                            (power_W el ipt)))
                    (fun power ipt =>
                       @dadd reals power
                         (@dmul reals
                            (@dmul reals
                               (@dmul reals (@Pi reals)
                                  (power_x (conjugate_power el) ipt 0))
                               (integrand_at (conjugate_power el)
                                  (conjugate_ELEMENT bulk_elem_pt) ipt))
                            (power_W (conjugate_power el) ipt)))).
      * f_equal; cbv [dzero double reals]; ring.
      * intros power ipt _.
        rewrite conjugate_integrand by assumption.
        change (power_x (conjugate_power el) ipt 0) with (power_x el ipt 0).
        change (power_W (conjugate_power el) ipt) with (power_W el ipt).
        cbv [dadd dmul double reals]; ring.
    + simpl; rewrite Hcast; reflexivity.
    + exact Hdim.
Qed.

Lemma conjugate_field_radiates_the_opposite_witness :
  exists power : R,
    fst (@PowerMonitorElement.global_power_contribution reals
           power_scenario_R PowerMonitorElement.dummy_outfile)
    = Normal power /\
    fst (@PowerMonitorElement.global_power_contribution reals
           (conjugate_power power_scenario_R)
           PowerMonitorElement.dummy_outfile)
    = Normal (- power)%R.
Proof.
  apply (conjugate_field_radiates_the_opposite power_scenario_R
           (@scenario_ELEMENT reals 1%R 2%R)
           PowerMonitorElement.dummy_outfile eq_refl (le_n 2)).
  - simpl; discriminate.
  - simpl; discriminate.
Defined.

(** ** Elements on entries of their own *)

Section Assembly.

Context {D : DoubleOps}.

Lemma fold_left_fixed {A B} (f : A -> B -> A) (l : list B) (a : A) :
  (forall x y, In y l -> f x y = x) -> fold_left f l a = a.
Proof.
  intros Hf; induction l as [|y l IH]; [reflexivity|]; simpl.
  rewrite Hf by (left; reflexivity).
  apply IH; intros x y' Hy'; apply Hf; right; exact Hy'.
Qed.

Lemma residual_entry_after_not_addressed (el : FluxElement.t) (k : nat)
    (entry : double) :
  ~ addressed el k -> residual_entry_after el k entry = entry.
Proof.
  intros Hk; unfold residual_entry_after.
  apply fold_left_fixed; intros x ipt _.
  apply fold_left_fixed; intros y l Hl.
  apply in_seq in Hl.
  unfold subtract_at_node, subtract_terms.
  destruct (Z.eqb_spec (local_eqn_real el l) (Z.of_nat k)) as [Hre|_].
  { exfalso; apply Hk; exists l; split; [lia | left; exact Hre]. }
  destruct (Z.eqb_spec (local_eqn_imag el l) (Z.of_nat k)) as [Him|_].
  { exfalso; apply Hk; exists l; split; [lia | right; exact Him]. }
  reflexivity.
Qed.

Lemma fill_in_contribution_to_residuals_in_range (el : FluxElement.t)
    (res : Vector double) :
  eqns_in_range el (length res) ->
  exists res',
    FluxElement.fill_in_contribution_to_residuals el res = (Normal tt, res') /\
    length res' = length res /\
    forall k, (k < length res)%nat ->
      nth k res' dzero = residual_entry_after el k (nth k res dzero).
Proof.
  intros Hrange.
  unfold FluxElement.fill_in_contribution_to_residuals.
  destruct (generic_in_range el 0 dzero
              {| FluxElement.residuals := res;
                 FluxElement.jacobian := Dummy_matrix |} Hrange)
    as (res' & -> & Hlen & Hnth).
  exists res'; simpl; auto.
Qed.

End Assembly.

(** X13. In any arithmetic, two flux elements whose equation numbers lie
    inside the residual vector and of which no entry is addressed by both
    can add their contributions in either order: both orders return
    normally and leave the same residual vector, entry for entry. *)
Theorem flux_elements_on_entries_of_their_own_commute :
  forall (D : DoubleOps) (el1 el2 : FluxElement.t) (res : Vector double),
    eqns_in_range el1 (length res) ->
    eqns_in_range el2 (length res) ->
    (forall k, ~ addressed el1 k \/ ~ addressed el2 k) ->
    (FluxElement.fill_in_contribution_to_residuals el1 ;;;
     FluxElement.fill_in_contribution_to_residuals el2)%M res
    = (FluxElement.fill_in_contribution_to_residuals el2 ;;;
       FluxElement.fill_in_contribution_to_residuals el1)%M res /\
    fst ((FluxElement.fill_in_contribution_to_residuals el1 ;;;
          FluxElement.fill_in_contribution_to_residuals el2)%M res)
    = Normal tt.
Proof.
  intros D el1 el2 res Hrange1 Hrange2 Hapart.
  destruct (fill_in_contribution_to_residuals_in_range el1 res Hrange1)
    as (res1 & Hrun1 & Hlen1 & Hnth1).
  destruct (fill_in_contribution_to_residuals_in_range el2 res Hrange2)
    as (res2 & Hrun2 & Hlen2 & Hnth2).
  rewrite <- Hlen1 in Hrange2; rewrite <- Hlen2 in Hrange1.
  destruct (fill_in_contribution_to_residuals_in_range el2 res1 Hrange2)
    as (res12 & Hrun12 & Hlen12 & Hnth12).
  destruct (fill_in_contribution_to_residuals_in_range el1 res2 Hrange1)
    as (res21 & Hrun21 & Hlen21 & Hnth21).
  unfold bind; rewrite Hrun1, Hrun2, Hrun12, Hrun21.
  split; [|reflexivity].
  f_equal.
  apply (nth_ext res12 res21 dzero dzero); [congruence|].
  intros k Hk.
  rewrite Hnth12 by congruence.
  rewrite Hnth21 by congruence.
  rewrite Hnth1 by congruence.
  rewrite Hnth2 by congruence.
  destruct (Hapart k) as [Hfree|Hfree];
    rewrite !(residual_entry_after_not_addressed _ k _ Hfree); reflexivity.
Qed.

Lemma flux_elements_on_entries_of_their_own_commute_witness :
  (@FluxElement.fill_in_contribution_to_residuals (binary64 no_atan2)
     (flux_scenario_b64 no_atan2) ;;;
   @FluxElement.fill_in_contribution_to_residuals (binary64 no_atan2)
     second_flux_scenario_b64)%M
    [b64 (2 ^ 54); b64 0; b64 (2 ^ 54); b64 0]
  = (@FluxElement.fill_in_contribution_to_residuals (binary64 no_atan2)
       second_flux_scenario_b64 ;;;
     @FluxElement.fill_in_contribution_to_residuals (binary64 no_atan2)
       (flux_scenario_b64 no_atan2))%M
      [b64 (2 ^ 54); b64 0; b64 (2 ^ 54); b64 0].
Proof.
  apply (flux_elements_on_entries_of_their_own_commute (binary64 no_atan2)
           (flux_scenario_b64 no_atan2) second_flux_scenario_b64
           [b64 (2 ^ 54); b64 0; b64 (2 ^ 54); b64 0]).
  - intros l _; split; vm_compute; reflexivity.
  - intros l _; split; vm_compute; reflexivity.
  - intros k.
    destruct (Nat.ltb_spec k 2) as [Hk|Hk].
    + right; intros (l & _ & [H|H]).
      * change (local_eqn_real second_flux_scenario_b64 l) with 2%Z in H; lia.
      * change (local_eqn_imag second_flux_scenario_b64 l) with 3%Z in H; lia.
    + left; intros (l & _ & [H|H]).
      * change (local_eqn_real (flux_scenario_b64 no_atan2) l) with 0%Z in H;
          lia.
      * change (local_eqn_imag (flux_scenario_b64 no_atan2) l) with 1%Z in H;
          lia.
Defined.

(** ** IEEE binary64: a new flux element and a real field *)



Section RealField.

Variable libm_atan2 : spec_float -> spec_float -> spec_float.

Lemma b64_sum_of_zeros (term : nat -> spec_float) (points : list nat)
    (a : spec_float) :
  b64_is_zero a = true ->
  (forall l, In l points -> b64_is_zero (term l) = true) ->
  b64_is_zero
    (fold_left (fun acc l => @dadd (binary64 libm_atan2) acc (term l))
               points a)
  = true.
Proof.
  revert a; induction points as [|l points IH]; intros a Ha Hterm;
    [exact Ha|]; simpl.
  apply IH.
  - apply b64_add_zeros; [exact Ha | apply Hterm; left; reflexivity].
  - intros l' Hl'; apply Hterm; right; exact Hl'.
Qed.

Lemma real_nodes_real_field (el : @PowerMonitorElement.t (binary64 libm_atan2))
    (psi : @Shape (binary64 libm_atan2)) :
  (forall l, (l < nnode (face (PowerMonitorElement.base el)))%nat ->
     b64_is_zero
       (nodal_value (face (PowerMonitorElement.base el)) l
          (imag (PowerMonitorElement.U_index_pml_fourier_decomposed_helmholtz el)))
     = true) ->
  (forall l, (l < nnode (face (PowerMonitorElement.base el)))%nat ->
     b64_is_finite (psi l) = true) ->
  b64_is_zero (imag (PowerMonitorElement.calculate_phi el psi)) = true.
Proof.
  intros Hnodes Hpsi.
  unfold PowerMonitorElement.calculate_phi.
  rewrite complex_sum_loop; cbn [imag].
  apply b64_sum_of_zeros; [reflexivity|].
  intros l Hl; apply in_seq in Hl.
  apply b64_zero_times_finite; [apply Hnodes | apply Hpsi]; lia.
Qed.

Lemma real_nodes_real_normal_derivative
    (bulk_elem_pt : @ELEMENT (binary64 libm_atan2))
    (dpsi_bulk_dx : @DShape (binary64 libm_atan2))
    (unit_normal : nat -> spec_float) :
  (forall l, (l < bulk_nnode bulk_elem_pt)%nat ->
     b64_is_zero
       (bulk_nodal_value bulk_elem_pt l (imag (bulk_u_index bulk_elem_pt)))
     = true) ->
  (forall l i, (l < bulk_nnode bulk_elem_pt)%nat ->
     (i < bulk_dim bulk_elem_pt)%nat ->
     b64_is_finite (dpsi_bulk_dx l i) = true) ->
  (forall i, (i < bulk_dim bulk_elem_pt)%nat ->
     b64_is_finite (unit_normal i) = true) ->
  b64_is_zero
    (imag (PowerMonitorElement.define_dphi_dn bulk_elem_pt
             (PowerMonitorElement.calculate_dphidx bulk_elem_pt dpsi_bulk_dx)
             unit_normal))
  = true.
Proof.
  intros Hnodes Hdpsi Hnormal.
  unfold PowerMonitorElement.define_dphi_dn.
  rewrite complex_sum_loop; cbn [imag].
  apply b64_sum_of_zeros; [reflexivity|].
  intros i Hi; apply in_seq in Hi.
  apply b64_zero_times_finite; [|apply Hnormal; lia].
  unfold PowerMonitorElement.calculate_dphidx.
  rewrite calculate_dphidx_sum.
  destruct (Nat.ltb_spec i (bulk_dim bulk_elem_pt)) as [_|]; [|lia].
  cbn [imag].
  apply b64_sum_of_zeros; [reflexivity|].
  intros l Hl; apply in_seq in Hl.
  apply b64_zero_times_finite; [apply Hnodes | apply Hdpsi]; lia.
Qed.

End RealField.

(** X16. On binary64 numbers a field whose nodal values have zero imaginary
    parts, at the nodes of the face and at the nodes of the bulk element,
    radiates nothing as long as nothing overflows: on a bulk element of the
    expected type with at least two directions, when at every integration
    point the shape functions of the face, the derivatives of the shape
    functions of the bulk element and the normal are finite, the real
    parts of the field and of its normal derivative are finite, and so are
    [Pi * x0] and the weight times the Jacobian, the integrand is a zero at
    every integration point and [global_power_contribution] returns a
    zero, whatever the output file. *)
Theorem real_nodal_values_radiate_nothing :
  forall (libm_atan2 : spec_float -> spec_float -> spec_float)
         (el : @PowerMonitorElement.t (binary64 libm_atan2))
         (bulk_elem_pt : @ELEMENT (binary64 libm_atan2))
         (outfile : @PowerMonitorElement.ofstream (binary64 libm_atan2)),
    cast_to_ELEMENT (bulk_element_pt (PowerMonitorElement.base el))
    = Some bulk_elem_pt ->
    (2 <= bulk_dim bulk_elem_pt)%nat ->
    (forall l, (l < nnode (face (PowerMonitorElement.base el)))%nat ->
       b64_is_zero
         (nodal_value (face (PowerMonitorElement.base el)) l
            (imag (PowerMonitorElement.U_index_pml_fourier_decomposed_helmholtz el)))
       = true) ->
    (forall l, (l < bulk_nnode bulk_elem_pt)%nat ->
       b64_is_zero
         (bulk_nodal_value bulk_elem_pt l (imag (bulk_u_index bulk_elem_pt)))
       = true) ->
    finite_power_geometry el bulk_elem_pt ->
    (forall ipt,
       (ipt < nweight (integral_pt (face (PowerMonitorElement.base el))))%nat ->
       b64_is_zero (integrand_at el bulk_elem_pt ipt) = true) /\
    exists power,
      fst (PowerMonitorElement.global_power_contribution el outfile)
      = Normal power /\
      b64_is_zero power = true.
Proof.
  intros libm_atan2 el bulk_elem_pt outfile Hcast Hdim Hface Hbulk Hfinite.
  assert (Hintegrand : forall ipt,
            (ipt < nweight (integral_pt (face (PowerMonitorElement.base el))))%nat ->
            b64_is_zero (integrand_at el bulk_elem_pt ipt) = true).
  { intros ipt Hipt.
    destruct (Hfinite ipt Hipt)
      as (Hshape & Hdpsi & Hnormal & Hre & Hdre & _ & _).
    unfold integrand_at.
    apply (real_field_binary64 libm_atan2); [| |exact Hre|exact Hdre].
    - unfold field_value.
      apply real_nodes_real_field; assumption.
    - unfold normal_derivative.
      apply real_nodes_real_normal_derivative; assumption. }
  split; [exact Hintegrand|].
  rewrite (global_power_contribution_run el bulk_elem_pt) by assumption.
  eexists; split; [reflexivity|].
  unfold power_sum.
  apply (b64_sum_of_zeros libm_atan2
           (fun ipt =>
              @dmul (binary64 libm_atan2)
                (@dmul (binary64 libm_atan2)
                   (@dmul (binary64 libm_atan2) Pi (power_x el ipt 0))
                   (integrand_at el bulk_elem_pt ipt))
                (power_W el ipt))); [reflexivity|].
  intros ipt Hipt; apply in_seq in Hipt.
  assert (Hlt : (ipt < nweight (integral_pt
                                  (face (PowerMonitorElement.base el))))%nat)
    by lia.
  destruct (Hfinite ipt Hlt) as (_ & _ & _ & _ & _ & Hx & HW).
  apply b64_zero_times_finite; [|exact HW].
  apply b64_finite_times_zero; [exact Hx | apply Hintegrand; exact Hlt].
Qed.

Lemma real_nodal_values_radiate_nothing_witness :
  finite_power_geometry real_field_scenario_b64 real_field_ELEMENT_b64 /\
  exists power,
    fst (@PowerMonitorElement.global_power_contribution (binary64 no_atan2)
           real_field_scenario_b64 PowerMonitorElement.dummy_outfile)
    = Normal power /\
    b64_is_zero power = true.
Proof.
  assert (Hfinite : finite_power_geometry real_field_scenario_b64
                      real_field_ELEMENT_b64).
  { intros ipt _.
    split; [intros l _; reflexivity|].
    split; [intros [|[|l]] [|[|i]] _ _; reflexivity|].
    split; [intros [|i] _; reflexivity|].
    repeat split; vm_compute; reflexivity. }
  split; [exact Hfinite|].
  apply (real_nodal_values_radiate_nothing no_atan2 real_field_scenario_b64
           real_field_ELEMENT_b64 PowerMonitorElement.dummy_outfile
           eq_refl (le_n 2)).
  - intros l _; reflexivity.
  - intros l _; reflexivity.
  - exact Hfinite.
Defined.
